(** * containers: a shallow embedding of [containers.go]

    The package drives a container engine through the Docker client:
    image build, container create / start / stop / purge, health query,
    command exec and image removal.  Everything the package does is a
    sequence of calls on the engine, so the embedding is a state monad over
    an abstract engine together with the trace of the calls issued.

    Layout: Go values ([Go]), readers and the JSON stream decoder
    ([Readers]), the exec frame decoder ([Stdcopy]), the engine interface,
    the operations of the package ([Containers]), a simulated engine to run
    the operations on ([Sim]) and the worlds of the examples; then the
    lemmas and theorems, operation by operation.  The set-up and tear-down of
    the connection and the unused [ListContainers] are left out. *)

From Stdlib Require Import List String Ascii ZArith Lia Bool Arith.
From Stdlib Require Import Strings.Byte.
From Stdlib Require Import DecimalString.
From Stdlib Require DecimalZ.
Import ListNotations.
Local Open Scope string_scope.

(* ------------------------------------------------------------------ *)
(** ** Go values *)

Module Go.

(** Go's [error].  [io.EOF] and [io.ErrUnexpectedEOF] are sentinel values
    compared by identity ([outErr == io.EOF]); [errors.New] builds the errors
    of this package; [foreign] stands for an error value made elsewhere (the
    engine client, the archiver, the JSON decoder, the transport), of which
    only the text is observable. *)
Inductive error : Type :=
| io_EOF
| io_ErrUnexpectedEOF
| errors_New (msg : string)
| foreign (msg : string).

(** [err.Error()] *)
Definition Error (e : error) : string :=
  match e with
  | io_EOF => "EOF"
  | io_ErrUnexpectedEOF => "unexpected EOF"
  | errors_New msg => msg
  | foreign msg => msg
  end.

(** The test [err == io.EOF] on a possibly nil error. *)
Definition is_EOF (e : option error) : bool :=
  match e with
  | Some io_EOF => true
  | _ => false
  end.

(** [fmt.Sprint] of an [int]. *)
Definition Sprint (n : Z) : string := NilZero.string_of_int (Z.to_int n).

(** [bytes.Buffer.String] *)
Definition Buffer_String (b : list byte) : string := string_of_list_byte b.

(** Does [needle] occur in [hay]?  ([strings.Contains]) *)
Fixpoint Contains (hay needle : string) : bool :=
  prefix needle hay ||
  match hay with
  | EmptyString => false
  | String _ hay' => Contains hay' needle
  end.

End Go.
Import Go.

(* ------------------------------------------------------------------ *)
(** ** Readers and the JSON stream decoder *)

Module Readers.

Local Open Scope list_scope.

(** An [io.Reader] seen from its consumer: the byte slices that successive
    [Read] calls hand out, then the error every later [Read] returns.  An
    HTTP response body behaves like this: after the data it keeps answering
    [io.EOF], and after a transport failure it keeps answering that
    failure. *)
Record Reader : Type := mkReader {
  chunks : list (list byte);
  tail : error
}.

(** The bytes a reader carries. *)
Definition content (r : Reader) : list byte := List.concat (chunks r).

(** [encoding/json]'s [isSpace] *)
Definition isSpace (c : byte) : bool :=
  Byte.eqb c x20 || Byte.eqb c x09 || Byte.eqb c x0d || Byte.eqb c x0a.

(** [encoding/json]'s [nonSpace]: does the buffer hold a non-space byte? *)
Definition nonSpace (b : list byte) : bool := existsb (fun c => negb (isSpace c)) b.

(** What the scanner says about the bytes buffered so far, read from the
    start of a value: the value ends after [n] bytes; the bytes are not JSON;
    or more input is needed, and [endable] tells whether the value would be
    complete if the input stopped here (a bare number or literal). *)
Inductive scan_result : Type :=
| scanEnd (n : nat)
| scanError (msg : string)
| scanContinue (endable : bool).

(** The record type the build log is decoded into ([ImageBuildOut] and
    [ProgressDetail]).  It has no field for an error message. *)
Record ProgressDetail : Type := mkProgressDetail {
  Current : Z;
  Total : Z
}.

Record ImageBuildOut : Type := mkImageBuildOut {
  Stream : string;
  Status : string;
  Id : string;
  Progress : string;
  Progress_Detail : ProgressDetail
}.

(** [var buildOut ImageBuildOut] *)
Definition zeroBuildOut : ImageBuildOut :=
  mkImageBuildOut "" "" "" "" (mkProgressDetail 0%Z 0%Z).

Section Decoder.

(** The JSON scanner and the unmarshaller into [ImageBuildOut] are the
    library's; the decoder's read loop below is written over any such pair.
    [unmarshal] yields the decoded record and, when a field has the wrong
    JSON type, the text of the [UnmarshalTypeError]. *)
Variable scan : list byte -> scan_result.
Variable unmarshal : list byte -> ImageBuildOut * option string.

(** The scanner skips leading white space, so a buffer of white space only
    never ends a value and is never an error. *)
Definition scanBuf (buf : list byte) : scan_result :=
  if nonSpace buf then scan buf else scanContinue false.

(** [Decoder.readValue] with [refill] inlined: scan what is buffered, and
    read on while the value is incomplete.  The error of a [Read] is looked
    at only after the buffer has been scanned.  Returns the bytes of the value
    or the error, with the chunks not yet read. *)
Fixpoint readValue (buf : list byte) (rest : list (list byte)) (tl : error)
  : (list byte + error) * list (list byte) :=
  match scanBuf buf with
  | scanEnd n => (inl (firstn n buf), rest)
  | scanError msg => (inr (foreign msg), rest)
  | scanContinue endable =>
      match rest with
      | c :: rest' => readValue (buf ++ c) rest' tl
      | [] =>
          match tl with
          | io_EOF =>
              if endable then (inl buf, [])
              else if nonSpace buf then (inr io_ErrUnexpectedEOF, [])
              else (inr io_EOF, [])
          | e => (inr e, [])
          end
      end
  end.

(** [json.NewDecoder(body).Decode(&buildOut)]: a fresh decoder, hence an
    empty buffer; whatever it buffered beyond the value it returns is gone
    with it. *)
Definition Decode (body : Reader) : (ImageBuildOut * option error) * Reader :=
  let '(v, rest) := readValue [] (chunks body) (tail body) in
  let body' := mkReader rest (tail body) in
  match v with
  | inl bytes =>
      let '(out, e) := unmarshal bytes in
      ((out, option_map foreign e), body')
  | inr e => ((zeroBuildOut, Some e), body')
  end.

End Decoder.

End Readers.
Import Readers.

(* ------------------------------------------------------------------ *)
(** ** The exec frame decoder *)

Module Stdcopy.

Local Open Scope list_scope.

(** The two origins a frame of an exec stream can have. *)
Inductive origin : Type := Stdout | Stderr.

Definition origin_eqb (a b : origin) : bool :=
  match a, b with
  | Stdout, Stdout | Stderr, Stderr => true
  | _, _ => false
  end.

(** A frame: where it comes from and what it carries. *)
Record frame : Type := mkFrame {
  tag : origin;
  payload : list byte
}.

Definition tag_byte (o : origin) : byte :=
  match o with
  | Stdout => x01
  | Stderr => x02
  end.

Definition origin_of_byte (b : byte) : option origin :=
  if Byte.eqb b x01 then Some Stdout
  else if Byte.eqb b x02 then Some Stderr
  else None.

Definition byte_of_N (n : N) : byte :=
  match Byte.of_N (n mod 256) with
  | Some b => b
  | None => x00
  end.

(** A length as four bytes, most significant first. *)
Definition be32 (n : N) : list byte :=
  [byte_of_N (n / 16777216); byte_of_N (n / 65536); byte_of_N (n / 256); byte_of_N n].

Definition be32_decode (bs : list byte) : N :=
  fold_left (fun acc b => acc * 256 + Byte.to_N b)%N bs 0%N.

(** The wire form of a frame: one origin byte, the payload length as four
    big-endian bytes, the payload. *)
Definition encode_frame (f : frame) : list byte :=
  tag_byte (tag f) :: be32 (N.of_nat (List.length (payload f))) ++ payload f.

Definition encode (fs : list frame) : list byte := flat_map encode_frame fs.

(** What the frames of one origin carry, in order. *)
Definition payloads (o : origin) (fs : list frame) : list byte :=
  flat_map (fun f => if origin_eqb (tag f) o then payload f else []) fs.

(** The decoder is a state machine: it collects the five header bytes, then
    passes on as many payload bytes as the header announced, then expects the
    next header. *)
Inductive phase : Type :=
| AwaitHeader (got : list byte)
| AwaitPayload (o : origin) (todo : nat)
| Failed (msg : string).

Record demux : Type := mkDemux {
  ph : phase;
  outBuf : list byte;
  errBuf : list byte
}.

Definition start : demux := mkDemux (AwaitHeader []) [] [].

Definition header_len : nat := 5.

Definition parse_header (h : list byte) : option (origin * nat) :=
  match h with
  | t :: len =>
      match origin_of_byte t with
      | Some o => Some (o, N.to_nat (be32_decode len))
      | None => None
      end
  | [] => None
  end.

Definition write (o : origin) (b : byte) (d : demux) : demux :=
  match o with
  | Stdout => mkDemux (ph d) (outBuf d ++ [b]) (errBuf d)
  | Stderr => mkDemux (ph d) (outBuf d) (errBuf d ++ [b])
  end.

Definition goto (p : phase) (d : demux) : demux :=
  mkDemux p (outBuf d) (errBuf d).

(** Modelled from the spec: one byte of input to the frame decoder of
    section 9 (await header, await payload, emit, repeat). *)
Definition feed (d : demux) (b : byte) : demux :=
  match ph d with
  | Failed _ => d
  | AwaitHeader got =>
      let got' := got ++ [b] in
      if (List.length got' <? header_len)%nat then goto (AwaitHeader got') d
      else
        match parse_header got' with
        | Some (o, O) => goto (AwaitHeader []) d
        | Some (o, S n) => goto (AwaitPayload o (S n)) d
        | None => goto (Failed "unrecognized stream origin") d
        end
  | AwaitPayload o todo =>
      let d' := write o b d in
      match todo with
      | S (S n) => goto (AwaitPayload o (S n)) d'
      | _ => goto (AwaitHeader []) d'
      end
  end.

(** One [Read]'s worth of input. *)
Definition feed_chunk (d : demux) (c : list byte) : demux := fold_left feed c d.

(** Modelled from the spec: [stdcopy.StdCopy] is the engine client's, not
    this package's, and is not among the sources; this is the demultiplexer
    of the design (sections 4.4, 6 and 9): frames of a one-byte origin tag, a
    four-byte big-endian length and the payload, decoded by looping over the
    reads until the stream is exhausted and writing each payload to the buffer
    of its origin.  The origin bytes are Docker's (1 for stdout, 2 for
    stderr).  Returns the two buffers and the error: an unknown origin, or the
    reader's failure when it did not end in [io.EOF]. *)
Definition StdCopy (src : Reader) : (list byte * list byte) * option error :=
  let d := fold_left feed_chunk (chunks src) start in
  let bufs := (outBuf d, errBuf d) in
  match ph d with
  | Failed msg => (bufs, Some (foreign msg))
  | _ =>
      match tail src with
      | io_EOF => (bufs, None)
      | e => (bufs, Some e)
      end
  end.

(** A payload short enough for its length to fit the four bytes of a
    header. *)
Definition fits (f : frame) : Prop :=
  (N.of_nat (List.length (payload f)) < 4294967296)%N.

(** A run of bytes written to the buffer of an origin. *)
Definition emit (o : origin) (p : list byte) (d : demux) : demux :=
  match o with
  | Stdout => mkDemux (ph d) (outBuf d ++ p) (errBuf d)
  | Stderr => mkDemux (ph d) (outBuf d) (errBuf d ++ p)
  end.

End Stdcopy.

(* ------------------------------------------------------------------ *)
(** ** The engine interface *)

(** The option and result records of the Docker client that the package
    fills in or reads, under the names of their Go packages. *)
Module types.

Record ImageBuildOptions : Type := mkImageBuildOptions {
  Dockerfile : string;
  PullParent : bool;
  Tags : list string;
  Remove : bool;
  NoCache : bool;
  SuppressOutput : bool
}.

Record ImageInspect : Type := mkImageInspect { ID : string }.

(** [State.Health] is a pointer, nil for a container without a healthcheck;
    [State] is a pointer as well. *)
Record Health : Type := mkHealth { Status : string }.
Record ContainerState : Type := mkContainerState { Health_ : option Health }.
Record ContainerJSON : Type := mkContainerJSON { State : option ContainerState }.

End types.

Module container.

Record CreateResponse : Type := mkCreateResponse {
  ID : string;
  Warnings : list string
}.

Record StopOptions : Type := mkStopOptions { Signal : string }.

Record RemoveOptions : Type := mkRemoveOptions {
  RemoveVolumes : bool;
  RemoveLinks : bool;
  Force : bool
}.

Record ExecOptions : Type := mkExecOptions {
  Cmd : list string;
  AttachStdout : bool;
  AttachStderr : bool
}.

Record ExecInspect : Type := mkExecInspect { ExitCode : Z }.

End container.

Module image.

Record RemoveOptions : Type := mkRemoveOptions {
  Force : bool;
  PruneChildren : bool
}.

Record PruneReport : Type := mkPruneReport {
  ImagesDeleted : list string;
  SpaceReclaimed : Z
}.

End image.

(** [ContainerCreateConfig]: the name and the four configuration records
    handed to the engine as they are. *)
Record ContainerCreateConfig : Type := mkContainerCreateConfig {
  Name : string;
  Config : option string;
  HostConfig : option string;
  NetworkingConfig : option string;
  Platform : option string
}.

(** The calls the package issues, with their arguments, as they appear in
    the trace.  [Call_BodyClose] and [Call_AttachClose] are the [Close] of the
    build response body and of the exec attach handle. *)
Inductive call : Type :=
| Call_Tar (path : string)
| Call_ImageBuild (opts : types.ImageBuildOptions)
| Call_BodyClose
| Call_ContainerCreate (config : ContainerCreateConfig)
| Call_ContainerStart (id : string)
| Call_ContainerStop (id : string) (opts : container.StopOptions)
| Call_ContainerRemove (id : string) (opts : container.RemoveOptions)
| Call_ImageInspectWithRaw (name : string)
| Call_ImageRemove (id : string) (opts : image.RemoveOptions)
| Call_ImagesPrune (pruneFilters : list (string * string))
| Call_ContainerInspect (id : string)
| Call_ContainerExecCreate (id : string) (opts : container.ExecOptions)
| Call_ContainerExecAttach (execID : string)
| Call_AttachClose
| Call_ContainerExecInspect (execID : string).

(** What the package consumes: the archiver and the methods of
    [DockerClient], each a transition of the engine that yields the call's
    results.  A nil error is [None]. *)
Class Engine (E : Type) : Type := {
  archive_Tar : string -> E -> (list byte * option error) * E;
  ImageBuild : list byte -> types.ImageBuildOptions -> E -> (Reader * option error) * E;
  ContainerCreate : ContainerCreateConfig -> E -> (container.CreateResponse * option error) * E;
  ContainerStart : string -> E -> option error * E;
  ContainerStop : string -> container.StopOptions -> E -> option error * E;
  ContainerRemove : string -> container.RemoveOptions -> E -> option error * E;
  ImageInspectWithRaw : string -> E -> (types.ImageInspect * option error) * E;
  ImageRemove : string -> image.RemoveOptions -> E -> option error * E;
  ImagesPrune : list (string * string) -> E -> (image.PruneReport * option error) * E;
  ContainerInspect : string -> E -> (types.ContainerJSON * option error) * E;
  ContainerExecCreate : string -> container.ExecOptions -> E -> (string * option error) * E;
  ContainerExecAttach : string -> E -> (Reader * option error) * E;
  ContainerExecInspect : string -> E -> (container.ExecInspect * option error) * E
}.

(** The engine and what has been asked of it so far, oldest call first. *)
Record World (E : Type) : Type := mkWorld {
  engine : E;
  trace : list call
}.
Arguments mkWorld {E} _ _.
Arguments engine {E} _.
Arguments trace {E} _.

(** The state monad of the operations. *)
Definition M (E A : Type) : Type := World E -> A * World E.

Definition ret {E A} (a : A) : M E A := fun w => (a, w).

Definition bind {E A B} (m : M E A) (k : A -> M E B) : M E B :=
  fun w => let (a, w') := m w in k a w'.

(** Issue a call: the engine moves, the trace grows. *)
Definition invoke {E A} (c : call) (f : E -> A * E) : M E A :=
  fun w => let (a, e') := f (engine w) in (a, mkWorld e' (trace w ++ [c])%list).

(** An action on a handle held by the caller; the engine does not move. *)
Definition note {E} (c : call) : M E unit :=
  fun w => (tt, mkWorld (engine w) (trace w ++ [c])%list).

Declare Scope go_scope.
Delimit Scope go_scope with go.
Notation "x <- m ;; k" := (bind m (fun x => k))
  (at level 61, m at next level, right associativity) : go_scope.
Notation "' p <- m ;; k" := (bind m (fun x => let 'p := x in k))
  (at level 61, p pattern, m at next level, right associativity) : go_scope.
Notation "m ;;; k" := (bind m (fun _ => k))
  (at level 61, right associativity) : go_scope.

(** How often a call occurs in a trace. *)
Definition occurrences (p : call -> bool) (t : list call) : nat :=
  List.length (filter p t).

Definition is_BodyClose (c : call) : bool :=
  match c with Call_BodyClose => true | _ => false end.

Definition is_AttachClose (c : call) : bool :=
  match c with Call_AttachClose => true | _ => false end.

Definition is_removal (c : call) : bool :=
  match c with
  | Call_ImageRemove _ _ | Call_ContainerRemove _ _ => true
  | _ => false
  end.

(** A Go function either returns or panics. *)
Inductive outcome (A : Type) : Type :=
| Returns (a : A)
| Panics (msg : string).
Arguments Returns {A} _.
Arguments Panics {A} _.

(* ------------------------------------------------------------------ *)
(** ** The operations of the package *)

Module Containers.

Import types.
Local Open Scope go_scope.

(** The label every error text of the package starts with. *)
Definition label : string := "[ERR:] [DOCKER] => ".

Section Operations.

Context {E : Type} {DockerClient : Engine E}.

(** The JSON library ([scan], [unmarshal]) behind [Decode], and the frame
    decoder [stdcopy.StdCopy]. *)
Variable scan : list byte -> scan_result.
Variable unmarshal : list byte -> ImageBuildOut * option string.
Variable StdCopy : Reader -> (list byte * list byte) * option error.

(** [defer cleanup]: [cleanup] runs when the rest of the function returns. *)
Definition defer {A} (cleanup : M E unit) (rest : M E A) : M E A :=
  a <- rest ;; cleanup ;;; ret a.

(** The loop of [BuildImage]: decode one record with a new decoder; on
    [io.EOF] close the body and leave; on anything else, go round again.
    [buildOut] is not looked at.  [fuel] bounds the number of rounds; [None]
    means the loop was still running when it ran out. *)
Fixpoint drainBuildLog (fuel : nat) (body : Reader) (w : World E) : option (World E) :=
  match fuel with
  | O => None
  | S fuel' =>
      let '((buildOut, outErr), body') := Decode scan unmarshal body in
      if is_EOF outErr then Some (snd (note Call_BodyClose w))
      else drainBuildLog fuel' body' w
  end.

(** [BuildImage] *)
Definition BuildImage (fuel : nat) (path imageName : string) (w : World E)
  : option (option error * World E) :=
  let '((buildCtx, buildCtxErr), w1) := invoke (Call_Tar path) (archive_Tar path) w in
  match buildCtxErr with
  | Some e =>
      Some (Some (errors_New ("[ERR:] [DOCKER] => FAILED TO CREATE BUILD CONTEXT FOR IMAGE "
                              ++ imageName ++ " => " ++ Error e)), w1)
  | None =>
      let buildOptions := mkImageBuildOptions "Dockerfile" true [imageName] true true false in
      let '((image, imgErr), w2) :=
        invoke (Call_ImageBuild buildOptions) (ImageBuild buildCtx buildOptions) w1 in
      match imgErr with
      | Some e =>
          Some (Some (errors_New ("[ERR:] [DOCKER] => FAILED TO BUILD IMAGE "
                                  ++ imageName ++ " => " ++ Error e)), w2)
      | None =>
          match drainBuildLog fuel image w2 with
          | Some w3 => Some (None, w3)
          | None => None
          end
      end
  end.

(** [CreateContainer] *)
Definition CreateContainer (config : ContainerCreateConfig)
  : M E (container.CreateResponse * option error) :=
  '(containerRes, err) <- invoke (Call_ContainerCreate config) (ContainerCreate config) ;;
  match err with
  | Some e =>
      ret (containerRes,
           Some (errors_New ("[ERR:] [DOCKER] => FAILED TO CREATE CONTAINER "
                             ++ Name config ++ " => " ++ Error e)))
  | None => ret (containerRes, None)
  end.

(** [StartContainer] *)
Definition StartContainer (cont : container.CreateResponse) : M E (option error) :=
  err <- invoke (Call_ContainerStart (container.ID cont)) (ContainerStart (container.ID cont)) ;;
  match err with
  | Some e =>
      ret (Some (errors_New ("[ERR:] [DOCKER] => FAILED TO START CONTAINER WITH ID: "
                             ++ container.ID cont ++ " => " ++ Error e)))
  | None => ret None
  end.

(** [StopContainer] *)
Definition StopContainer (containerID : string) : M E (option error) :=
  let stopOptions := container.mkStopOptions "SIGTERM" in
  err <- invoke (Call_ContainerStop containerID stopOptions)
                (ContainerStop containerID stopOptions) ;;
  match err with
  | Some e =>
      ret (Some (errors_New ("[ERR:] [DOCKER] => FAILED TO STOP CONTAINER WITH ID: "
                             ++ containerID ++ " => " ++ Error e)))
  | None => ret None
  end.

(** [PurgeContainer] *)
Definition PurgeContainer (containerID : string) : M E (option error) :=
  let removeOptions := container.mkRemoveOptions true false true in
  err <- invoke (Call_ContainerRemove containerID removeOptions)
                (ContainerRemove containerID removeOptions) ;;
  match err with
  | Some e =>
      ret (Some (errors_New ("[ERR:] [DOCKER] => FAILED TO PURGE CONTAINER WITH ID: "
                             ++ containerID ++ " => " ++ Error e)))
  | None => ret None
  end.

(** [DeleteImage] *)
Definition DeleteImage (imageName : string) : M E (bool * option error) :=
  '(img, imgErr) <- invoke (Call_ImageInspectWithRaw imageName)
                           (ImageInspectWithRaw imageName) ;;
  let exists_ := match imgErr with Some _ => false | None => true end in
  if exists_ then
    let removeOptions := image.mkRemoveOptions true true in
    imgRemoveErr <- invoke (Call_ImageRemove (ID img) removeOptions)
                           (ImageRemove (ID img) removeOptions) ;;
    match imgRemoveErr with
    | Some e =>
        ret (exists_,
             Some (errors_New ("[ERR:] [DOCKER] => FAILED TO DELETE IMAGE: "
                               ++ imageName ++ " | => " ++ Error e)))
    | None => ret (exists_, None)
    end
  else ret (exists_, None).

(** [PruneDanglingImages] *)
Definition PruneDanglingImages : M E (image.PruneReport * option error) :=
  let pruneFilters := [("dangling", "true")] in
  '(pruneReport, pruneErr) <- invoke (Call_ImagesPrune pruneFilters) (ImagesPrune pruneFilters) ;;
  match pruneErr with
  | Some e =>
      ret (pruneReport,
           Some (errors_New ("[ERR:] [DOCKER] => FAILED TO PRUNE DANGLING IMAGES  | => "
                             ++ Error e)))
  | None => ret (pruneReport, None)
  end.

Definition nil_dereference : string :=
  "runtime error: invalid memory address or nil pointer dereference".

(** [GetContainerHealthStatus].  [containerJSON.State.Health.Status] follows
    two pointers; following a nil one panics. *)
Definition GetContainerHealthStatus (containerID : string)
  : M E (outcome (string * option error)) :=
  '(containerJSON, err) <- invoke (Call_ContainerInspect containerID)
                                  (ContainerInspect containerID) ;;
  match err with
  | Some e => ret (Returns ("unhealthy", Some e))
  | None =>
      match State containerJSON with
      | None => ret (Panics nil_dereference)
      | Some state =>
          match Health_ state with
          | None => ret (Panics nil_dereference)
          | Some health => ret (Returns (Status health, None))
          end
      end
  end.

(** [Exec] *)
Definition Exec (containerID : string) (cmd : list string) : M E (string * option error) :=
  let execConfig := container.mkExecOptions cmd true true in
  '(execID, err) <- invoke (Call_ContainerExecCreate containerID execConfig)
                           (ContainerExecCreate containerID execConfig) ;;
  match err with
  | Some e =>
      ret ("", Some (errors_New ("[ERR:] [DOCKER] => FAILED TO CREATE EXEC ISNTANCE => "
                                 ++ Error e)))
  | None =>
      '(resp, err) <- invoke (Call_ContainerExecAttach execID) (ContainerExecAttach execID) ;;
      match err with
      | Some e =>
          ret ("", Some (errors_New ("[ERR:] [DOCKER] => FAILED TO ATTACH TO EXEC INSTANCE => "
                                     ++ Error e)))
      | None =>
          defer (note Call_AttachClose)
            (let '((outBuf, errBuf), err) := StdCopy resp in
             match err with
             | Some e =>
                 ret ("", Some (errors_New ("[ERR:] [DOCKER] => FAILED TO COPY EXEC OUTPUT => "
                                            ++ Error e)))
             | None =>
                 '(execInspectResp, err) <- invoke (Call_ContainerExecInspect execID)
                                                   (ContainerExecInspect execID) ;;
                 match err with
                 | Some e =>
                     ret ("", Some (errors_New
                                      ("[ERR:] [DOCKER] => FAILED TO INSPECT EXEC INSTANCE => "
                                       ++ Error e)))
                 | None =>
                     if negb (container.ExitCode execInspectResp =? 0)%Z then
                       ret ("", Some (errors_New
                                        ("[ERR:] [DOCKER] => COMMAND EXITIED WITH CODE "
                                         ++ Sprint (container.ExitCode execInspectResp)
                                         ++ " => " ++ Buffer_String errBuf)))
                     else
                       let psOutput := Buffer_String outBuf in
                       ret (psOutput, None)
                 end
             end)
      end
  end.

End Operations.

End Containers.
Import Containers.

(* ------------------------------------------------------------------ *)
(** ** A simulated engine *)

(** An engine small enough to run the operations on: named images, of which
    some are in use, containers with a running flag and an optional health
    status, and the streams it answers a build and an exec with.  The general
    theorems below hold for every engine; this one serves the examples. *)
Module Sim.

Local Open Scope list_scope.

Record cont : Type := mkCont {
  cid : string;
  running : bool;
  health : option string
}.

Record sim : Type := mkSim {
  images : list (string * string);
  in_use : list string;
  conts : list cont;
  build_log : Reader;
  exec_stream : Reader;
  exec_exit : Z
}.

Definition find_image (name : string) (s : sim) : option string :=
  option_map snd (find (fun p => String.eqb (fst p) name) (images s)).

Definition find_cont (id : string) (s : sim) : option cont :=
  find (fun c => String.eqb (cid c) id) (conts s).

Definition set_images (l : list (string * string)) (s : sim) : sim :=
  mkSim l (in_use s) (conts s) (build_log s) (exec_stream s) (exec_exit s).

Definition set_conts (l : list cont) (s : sim) : sim :=
  mkSim (images s) (in_use s) l (build_log s) (exec_stream s) (exec_exit s).

Definition without (id : string) (l : list cont) : list cont :=
  filter (fun c => negb (String.eqb (cid c) id)) l.

Definition no_such_container (id : string) : option error :=
  Some (foreign ("No such container: " ++ id)%string).

Definition set_running (b : bool) (id : string) (s : sim) : option error * sim :=
  match find_cont id s with
  | Some c => (None, set_conts (mkCont id b (health c) :: without id (conts s)) s)
  | None => (no_such_container id, s)
  end.

#[global] Instance sim_engine : Engine sim := {|
  archive_Tar path s :=
    if String.eqb path "" then (([], Some (foreign "lstat : no such file or directory")), s)
    else (([], None), s);
  ImageBuild ctx opts s :=
    ((build_log s, None),
     set_images (map (fun t => (t, ("sha256:" ++ t)%string)) (types.Tags opts) ++ images s) s);
  ContainerCreate config s :=
    match find_cont (Name config) s with
    | Some _ =>
        ((container.mkCreateResponse "" [],
          Some (foreign ("Conflict. The container name is already in use: " ++ Name config)%string)),
         s)
    | None =>
        ((container.mkCreateResponse (Name config) [], None),
         set_conts (mkCont (Name config) false None :: conts s) s)
    end;
  ContainerStart id s := set_running true id s;
  ContainerStop id opts s := set_running false id s;
  ContainerRemove id opts s :=
    match find_cont id s with
    | Some c =>
        if running c && negb (container.Force opts)
        then (Some (foreign "cannot remove a running container"), s)
        else (None, set_conts (without id (conts s)) s)
    | None => (no_such_container id, s)
    end;
  ImageInspectWithRaw name s :=
    match find_image name s with
    | Some id => ((types.mkImageInspect id, None), s)
    | None => ((types.mkImageInspect "", Some (foreign ("No such image: " ++ name)%string)), s)
    end;
  ImageRemove id opts s :=
    if existsb (String.eqb id) (in_use s)
    then (Some (foreign "conflict: image is being used by a running container"), s)
    else (None, set_images (filter (fun p => negb (String.eqb (snd p) id)) (images s)) s);
  ImagesPrune pruneFilters s := ((image.mkPruneReport [] 0, None), s);
  ContainerInspect id s :=
    match find_cont id s with
    | Some c =>
        ((types.mkContainerJSON
            (Some (types.mkContainerState (option_map types.mkHealth (health c)))), None), s)
    | None => ((types.mkContainerJSON None, no_such_container id), s)
    end;
  ContainerExecCreate id opts s :=
    match find_cont id s with
    | Some c =>
        if running c then ((("exec-" ++ id)%string, None), s)
        else (("", Some (foreign "container is not running")), s)
    | None => (("", no_such_container id), s)
    end;
  ContainerExecAttach execID s := ((exec_stream s, None), s);
  ContainerExecInspect execID s := ((container.mkExecInspect (exec_exit s), None), s)
|}.

Definition quote : byte := x22.
Definition backslash : byte := x5c.

(** A scanner for streams of JSON objects and arrays, which is what a build
    log is: it finds the bracket that closes the value, skipping over string
    literals, and rejects anything else at the top level.  The brackets are
    the bytes 7b, 7d, 5b and 5d.  [pos] counts the bytes seen, [depth] the
    open brackets. *)
Fixpoint scan_from (depth pos : nat) (instr esc : bool) (bs : list byte) : scan_result :=
  match bs with
  | [] => scanContinue false
  | b :: bs' =>
      if instr then
        if esc then scan_from depth (S pos) true false bs'
        else if Byte.eqb b backslash then scan_from depth (S pos) true true bs'
        else if Byte.eqb b quote then scan_from depth (S pos) false false bs'
        else scan_from depth (S pos) true false bs'
      else if Byte.eqb b x7b || Byte.eqb b x5b then scan_from (S depth) (S pos) false false bs'
      else if Byte.eqb b x7d || Byte.eqb b x5d then
        match depth with
        | O => scanError "invalid character looking for beginning of value"
        | S O => scanEnd (S pos)
        | S d => scan_from d (S pos) false false bs'
        end
      else
        match depth with
        | O =>
            if isSpace b then scan_from O (S pos) false false bs'
            else scanError "invalid character looking for beginning of value"
        | S _ =>
            if Byte.eqb b quote then scan_from depth (S pos) true false bs'
            else scan_from depth (S pos) false false bs'
        end
  end.

Definition scan (buf : list byte) : scan_result := scan_from O O false false buf.

(** An unmarshaller that accepts every value and fills no field, as
    [Unmarshal] does with an object that has none of the record's keys. *)
Definition unmarshal (v : list byte) : ImageBuildOut * option string := (zeroBuildOut, None).

Definition bytes (s : string) : list byte := list_byte_of_string s.

(** A reader that hands out each string in one [Read] and then ends. *)
Definition reader_of (reads : list string) : Reader := mkReader (map bytes reads) io_EOF.

End Sim.

(* ------------------------------------------------------------------ *)
(** ** What the statements speak of *)

(** The double quote, the one character a literal cannot hold as it is. *)
Definition dquote : string := String (ascii_of_nat 34) EmptyString.

(** The text of a JSON object with one string field, as the engine writes a
    record of the build log. *)
Definition record (key value : string) : string :=
  "{" ++ dquote ++ key ++ dquote ++ ":" ++ dquote ++ value ++ dquote ++ "}".

(** The engine reports a failed build step inside the log, as a record with
    an [error] key.  A stream carries an error record when that key occurs in
    its bytes. *)
Definition error_key : string := dquote ++ "error" ++ dquote ++ ":".

Definition carries_error_record (body : Reader) : bool :=
  Contains (string_of_list_byte (content body)) error_key.

(** The options [BuildImage] submits a build with. *)
Definition buildOptions (imageName : string) : types.ImageBuildOptions :=
  types.mkImageBuildOptions "Dockerfile" true [imageName] true true false.

(** A build whose second step fails: the log tells so, and ends. *)
Definition failed_build_log : Reader :=
  Sim.reader_of [record "stream" "Step 1/2 : FROM scratch";
                 record "error" "COPY failed: no source files were specified"].

Definition failed_build : World Sim.sim :=
  mkWorld (Sim.mkSim [] [] [] failed_build_log (Sim.reader_of []) 0) [].

(** A build during which the connection to the engine breaks: one record
    arrives, then every [Read] fails. *)
Definition broken_build_log : Reader :=
  mkReader [Sim.bytes (record "stream" "Step 1/2 : FROM alpine")] io_ErrUnexpectedEOF.

Definition broken_build : World Sim.sim :=
  mkWorld (Sim.mkSim [] [] [] broken_build_log (Sim.reader_of []) 0) [].

(** A log with a record that does not decode between two that do. *)
Definition garbled_build : World Sim.sim :=
  mkWorld (Sim.mkSim [] [] []
             (Sim.reader_of [record "stream" "Step 1/1 : FROM scratch"; "}{"; record "id" "3f2a"])
             (Sim.reader_of []) 0) [].

(** An engine with two images, of which [db] is in use, and two
    containers: [web], running and without a healthcheck, and [job], created
    and never started. *)
Definition store : World Sim.sim :=
  mkWorld (Sim.mkSim [("app", "sha256:app"); ("db", "sha256:db")] ["sha256:db"]
             [Sim.mkCont "web" true None; Sim.mkCont "job" false None]
             (Sim.reader_of []) (Sim.reader_of []) 0) [].

(** What [Exec] returns once the exit code is known. *)
Definition exec_result (code : Z) (outBuf errBuf : list byte) : string * option error :=
  if (code =? 0)%Z then (Buffer_String outBuf, None)
  else (EmptyString,
        Some (errors_New ("[ERR:] [DOCKER] => COMMAND EXITIED WITH CODE "
                          ++ Sprint code ++ " => " ++ Buffer_String errBuf))).

(** Three frames of an exec stream, and their bytes cut into reads in the
    middle of a header and in the middle of a payload. *)
Definition exec_frames : list Stdcopy.frame :=
  [Stdcopy.mkFrame Stdcopy.Stdout (Sim.bytes "hello ");
   Stdcopy.mkFrame Stdcopy.Stderr (Sim.bytes "warning: slow");
   Stdcopy.mkFrame Stdcopy.Stdout (Sim.bytes "world")].

Definition exec_reads : list (list byte) :=
  let bs := Stdcopy.encode exec_frames in
  [firstn 3 bs; firstn 10 (skipn 3 bs); []; firstn 1 (skipn 13 bs); skipn 14 bs].

(** An engine on which the container [web] runs and an exec answers with
    [exec_reads] and the exit code [code]. *)
Definition exec_world (code : Z) : World Sim.sim :=
  mkWorld (Sim.mkSim [] [] [Sim.mkCont "web" true None]
             (Sim.reader_of []) (mkReader exec_reads io_EOF) code) [].

(** An error made by this package, its text starting with the label. *)
Definition labelled (e : error) : bool :=
  match e with
  | errors_New msg => prefix label msg
  | _ => false
  end.

(** The text of the error holds the identifier. *)
Definition names (ident : string) (e : error) : bool := Contains (Error e) ident.

(** Labelled and naming the identifier. *)
Definition wrapped (ident : string) (e : error) : Prop :=
  labelled e = true /\ names ident e = true.

(** A property of the error of a result, when there is one. *)
Definition every_error (P : error -> Prop) (r : option error) : Prop :=
  match r with
  | Some e => P e
  | None => True
  end.

(* ------------------------------------------------------------------ *)
(** ** The connection *)

(** [DockerClient] is a package variable, nil until [InitializeDockerClient]
    has succeeded.  The host is what answers [client.NewClientWithOpts] and
    the [Close] of a client; [dials] records what was asked of it. *)
Module Connection.

Local Open Scope list_scope.

(** The two options the package dials with. *)
Inductive Opt : Type := FromEnv | WithAPIVersionNegotiation.

Inductive dial (H : Type) : Type :=
| Dial_NewClientWithOpts (ops : list Opt)
| Dial_Close (cli : H).
Arguments Dial_NewClientWithOpts {H} _.
Arguments Dial_Close {H} _.

Class Host (H S : Type) : Type := {
  NewClientWithOpts : list Opt -> S -> (option H * option error) * S;
  Close : H -> S -> option error * S
}.

(** The process: the package variable, the host, the calls made. *)
Record Process (H S : Type) : Type := mkProcess {
  DockerClient : option H;
  host : S;
  dials : list (dial H)
}.
Arguments mkProcess {H S} _ _ _.
Arguments DockerClient {H S} _.
Arguments host {H S} _.
Arguments dials {H S} _.

Definition is_Close {H : Type} (d : dial H) : bool :=
  match d with Dial_Close _ => true | _ => false end.

Section Lifecycle.

Context {H S : Type} {client : Host H S}.

(** [InitializeDockerClient] *)
Definition InitializeDockerClient (p : Process H S) : option error * Process H S :=
  let ops := [FromEnv; WithAPIVersionNegotiation] in
  let '((cli, err), s1) := NewClientWithOpts ops (host p) in
  let log := dials p ++ [Dial_NewClientWithOpts ops] in
  match err with
  | Some e =>
      (Some (errors_New ("[ERR:] [DOCKER] => FAILED TO INITIALIZE DOCKER CLIENT! => "
                         ++ Error e)%string),
       mkProcess (DockerClient p) s1 log)
  | None => (None, mkProcess cli s1 log)
  end.

(** [CloseDockerClient] *)
Definition CloseDockerClient (p : Process H S) : option error * Process H S :=
  match DockerClient p with
  | None => (Some (errors_New "[ERR:] [DOCKER] => DOCKER CLIENT NOT FOUND"), p)
  | Some cli =>
      let '(closeErr, s1) := Close cli (host p) in
      let p1 := mkProcess (DockerClient p) s1 (dials p ++ [Dial_Close cli]) in
      match closeErr with
      | Some e =>
          (Some (errors_New ("[ERR:] [DOCKER] => FAILED TO CLOSE DOCKER CLIENT => "
                             ++ Error e)%string), p1)
      | None => (None, p1)
      end
  end.

End Lifecycle.

(** A host to run the two on: it hands out numbered clients while it is
    reachable, and refuses to close a client twice. *)
Record daemon : Type := mkDaemon {
  reachable : bool;
  next : nat;
  opened : list nat
}.

#[global] Instance daemon_host : Host nat daemon := {|
  NewClientWithOpts ops d :=
    if reachable d
    then ((Some (next d), None), mkDaemon true (S (next d)) (next d :: opened d))
    else ((None, Some (foreign "Cannot connect to the Docker daemon")), d);
  Close cli d :=
    if existsb (Nat.eqb cli) (opened d)
    then (None, mkDaemon (reachable d) (next d)
                  (filter (fun c => negb (Nat.eqb cli c)) (opened d)))
    else (Some (foreign "client already closed"), d)
|}.

End Connection.

(* ------------------------------------------------------------------ *)
(** ** ListContainers *)

Module Listing.

Local Open Scope list_scope.

(** [container.ListOptions], of which the package passes the zero value. *)
Record ListOptions : Type := mkListOptions {
  Size : bool;
  All : bool;
  Latest : bool;
  Since : string;
  Before : string;
  Limit : Z;
  Filters : list (string * string)
}.

Definition zeroListOptions : ListOptions :=
  mkListOptions false false false EmptyString EmptyString 0 [].

(** What the listing tells of a container; the fields the package reads. *)
Record Summary : Type := mkSummary {
  ID : string;
  Image : string;
  Names : list string
}.

Class Lister (E : Type) : Type := {
  ContainerList : ListOptions -> E -> (list Summary * option error) * E
}.

Definition newline : string := String (ascii_of_nat 10) EmptyString.

(** [s[:n]]: the first [n] bytes, or a panic when [s] is shorter. *)
Definition slice_to (s : string) (n : nat) : outcome string :=
  if (n <=? String.length s)%nat then Returns (substring 0 n s)
  else Panics ("runtime error: slice bounds out of range [:" ++ Sprint (Z.of_nat n)
               ++ "] with length " ++ Sprint (Z.of_nat (String.length s)))%string.

(** [l[0]], or a panic when [l] is empty. *)
Definition index0 (l : list string) : outcome string :=
  match l with
  | x :: _ => Returns x
  | [] => Panics "runtime error: index out of range [0] with length 0"
  end.

(** The arguments of the [Printf], evaluated from left to right, and the
    text it prints for the format [%s %s %s %s \n\n]. *)
Definition line (c : Summary) : outcome string :=
  match slice_to (ID c) 10 with
  | Panics msg => Panics msg
  | Returns short =>
      match index0 (Names c) with
      | Panics msg => Panics msg
      | Returns name =>
          Returns (ID c ++ " " ++ short ++ " " ++ Image c ++ " " ++ name
                   ++ " " ++ newline ++ newline)%string
      end
  end.

(** The loop over the containers; [out] is what has been printed. *)
Fixpoint print_each (cs : list Summary) (out : string) : outcome unit * string :=
  match cs with
  | [] => (Returns tt, out)
  | c :: cs' =>
      match line c with
      | Panics msg => (Panics msg, out)
      | Returns l => print_each cs' (out ++ l)%string
      end
  end.

Section Operation.

Context {E : Type} {DockerClient : Lister E}.

(** [ListContainers]: the result or the panic, what was printed, and the
    engine after the call. *)
Definition ListContainers (s : E) : (outcome (option error) * string) * E :=
  let '((containers, err), s1) := ContainerList zeroListOptions s in
  match err with
  | Some e =>
      ((Returns (Some (errors_New ("[ERR] [DOCKER:] => FAILED TO LIST CONTAINERS => "
                                   ++ Error e)%string)), EmptyString), s1)
  | None =>
      match print_each containers EmptyString with
      | (Panics msg, out) => ((Panics msg, out), s1)
      | (Returns _, out) => ((Returns None, out), s1)
      end
  end.

End Operation.

(** An engine that answers with a fixed listing, or fails. *)
#[global] Instance fixed_listing : Lister (list Summary + string) := {|
  ContainerList ops s :=
    match s with
    | inl cs => ((cs, None), s)
    | inr msg => (([], Some (foreign msg)), s)
    end
|}.

(** Can the line of this container be printed? *)
Definition printable (c : Summary) : Prop :=
  10 <= String.length (ID c) /\ Names c <> [].

(** The line of a printable container. *)
Definition format (c : Summary) : string :=
  (ID c ++ " " ++ substring 0 10 (ID c) ++ " " ++ Image c ++ " " ++ hd EmptyString (Names c)
   ++ " " ++ newline ++ newline)%string.

(** Two listings for the examples; in the second the ID of the second
    container is too short. *)
Definition listed : list Summary + string :=
  inl [mkSummary "3f2a9c81d07e55aa" "nginx:1.27" ["/web"; "/front"];
       mkSummary "0123456789" "redis" ["/cache"]].

Definition listed_short : list Summary + string :=
  inl [mkSummary "3f2a9c81d07e55aa" "nginx:1.27" ["/web"];
       mkSummary "abc" "redis" ["/cache"];
       mkSummary "77aa77aa77aa77aa" "busybox" ["/job"]].

(** What the lines of printable containers add up to. *)
Definition printed (cs : list Summary) : string :=
  fold_right (fun c rest => (format c ++ rest)%string) EmptyString cs.

End Listing.

(* ------------------------------------------------------------------ *)
(** ** Reading an error text back *)

(** [strings.CutPrefix] *)
Fixpoint CutPrefix (s pre : string) {struct pre} : option string :=
  match pre with
  | EmptyString => Some s
  | String a pre' =>
      match s with
      | EmptyString => None
      | String b s' => if Ascii.eqb a b then CutPrefix s' pre' else None
      end
  end.

(** The text before the first space, and the text from that space on. *)
Fixpoint cut_at_space (s : string) : string * string :=
  match s with
  | EmptyString => (EmptyString, EmptyString)
  | String a s' =>
      if Ascii.eqb a " " then (EmptyString, s)
      else let (w, rest) := cut_at_space s' in (String a w, rest)
  end.

(** A text without a space: cutting at the first space gives it back. *)
Definition spaceless (s : string) : Prop :=
  forall rest, cut_at_space (s ++ String " " rest) = (s, String " " rest).

(** What a caller can read back from the error of a command that exited
    with a nonzero code: the code and the text of its standard error. *)
Definition parse_exit_error (e : error) : option (Z * string) :=
  match CutPrefix (Error e) "[ERR:] [DOCKER] => COMMAND EXITIED WITH CODE " with
  | None => None
  | Some rest =>
      let (code, rest') := cut_at_space rest in
      match NilZero.int_of_string code, CutPrefix rest' " => " with
      | Some d, Some stderr => Some (Z.of_int d, stderr)
      | _, _ => None
      end
  end.

(** Does the text end with [suf]? *)
Definition ends_with (s suf : string) : Prop := exists pre, s = (pre ++ suf)%string.

(** The result [r] of an operation surfaces the outcome [cause] of the
    engine call behind it: nil when the call succeeded; when it failed, a new
    error of the package whose text ends with the text of the engine's. *)
Definition surfaces (cause r : option error) : Prop :=
  match cause with
  | None => r = None
  | Some e => exists msg, r = Some (errors_New msg) /\ ends_with msg (Error e)
  end.

(** An engine on which the container [web] runs and the stream of an exec
    breaks after the first bytes of a frame. *)
Definition broken_exec_world : World Sim.sim :=
  mkWorld (Sim.mkSim [] [] [Sim.mkCont "web" true None]
             (Sim.reader_of [])
             (mkReader [firstn 8 (Stdcopy.encode exec_frames)] io_ErrUnexpectedEOF) 0) [].

(* ------------------------------------------------------------------ *)
(** ** The build log loop *)

Section BuildLog.

Local Open Scope list_scope.

Context {E : Type} {DockerClient : Engine E}.
Variable scan : list byte -> scan_result.
Variable unmarshal : list byte -> ImageBuildOut * option string.

(** A decoder never reads past the reads it was given. *)
Lemma readValue_rest_le (rest : list (list byte)) :
  forall buf tl,
    List.length (snd (readValue scan buf rest tl)) <= List.length rest.
Proof.
  induction rest as [|c rest IH]; intros buf tl; simpl.
  - destruct (scanBuf scan buf) as [n|msg|endable]; simpl; auto.
    destruct tl; simpl; auto.
    destruct endable; simpl; auto.
    destruct (nonSpace buf); simpl; auto.
  - destruct (scanBuf scan buf) as [n|msg|endable]; simpl; auto.
Qed.

(** [io.EOF] comes out of [readValue] only from a reader that ends in it. *)
Lemma readValue_EOF (rest : list (list byte)) :
  forall buf tl rest',
    readValue scan buf rest tl = (inr io_EOF, rest') -> tl = io_EOF.
Proof.
  induction rest as [|c rest IH]; intros buf tl rest'; simpl.
  - destruct (scanBuf scan buf) as [n|msg|endable]; try discriminate.
    destruct tl; try discriminate; auto.
  - destruct (scanBuf scan buf) as [n|msg|endable]; try discriminate.
    apply IH.
Qed.

Lemma Decode_tail (body : Reader) :
  tail (snd (Decode scan unmarshal body)) = tail body.
Proof.
  unfold Decode.
  destruct (readValue scan [] (chunks body) (tail body)) as [[v|e] rest]; simpl.
  - destruct (unmarshal v); reflexivity.
  - reflexivity.
Qed.

(** A fresh decoder starts with a [Read]: while reads are left, each
    [Decode] uses up at least one. *)
Lemma Decode_progress (body : Reader) :
  chunks body <> [] ->
  List.length (chunks (snd (Decode scan unmarshal body))) < List.length (chunks body).
Proof.
  intros Hne. unfold Decode.
  destruct (chunks body) as [|c rest] eqn:Hc; [congruence|].
  simpl readValue.
  pose proof (readValue_rest_le rest c (tail body)) as Hle.
  destruct (readValue scan c rest (tail body)) as [[v|e] rest']; simpl in *.
  - destruct (unmarshal v); simpl; lia.
  - lia.
Qed.

(** With nothing left to read, [Decode] answers what the reader ends in and
    leaves it as it was. *)
Lemma Decode_exhausted (body : Reader) :
  chunks body = [] ->
  Decode scan unmarshal body = ((zeroBuildOut, Some (tail body)), body).
Proof.
  intros Hc. unfold Decode. rewrite Hc. simpl.
  destruct body as [cs tl]; simpl in *; subst cs.
  destruct tl; reflexivity.
Qed.

(** The loop's test [outErr == io.EOF] holds only at the end of a stream. *)
Lemma Decode_EOF (body : Reader) :
  is_EOF (snd (fst (Decode scan unmarshal body))) = true -> tail body = io_EOF.
Proof.
  unfold Decode.
  destruct (readValue scan [] (chunks body) (tail body)) as [[v|e] rest] eqn:Hrv; simpl.
  - destruct (unmarshal v) as [out [m|]]; simpl; discriminate.
  - destruct e; simpl; try discriminate.
    intros _. eapply readValue_EOF; eauto.
Qed.

(** Whenever the loop ends, it has closed the body, once, and done nothing
    else. *)
Lemma drainBuildLog_result (fuel : nat) :
  forall body (w w' : World E),
    drainBuildLog scan unmarshal fuel body w = Some w' ->
    w' = mkWorld (engine w) (trace w ++ [Call_BodyClose]).
Proof.
  induction fuel as [|fuel IH]; intros body w w'; simpl; [discriminate|].
  destruct (Decode scan unmarshal body) as [[buildOut outErr] body'].
  destruct (is_EOF outErr).
  - intros H; inversion H; reflexivity.
  - apply IH.
Qed.

(** On a stream that ends in [io.EOF] the loop ends, after at most one round
    per read and one more; records that fail to decode do not stop it. *)
Lemma drainBuildLog_terminates (fuel : nat) :
  forall body (w : World E),
    tail body = io_EOF ->
    List.length (chunks body) < fuel ->
    drainBuildLog scan unmarshal fuel body w
    = Some (mkWorld (engine w) (trace w ++ [Call_BodyClose])).
Proof.
  induction fuel as [|fuel IH]; intros body w Htl Hlen; [lia|].
  simpl.
  destruct (Decode scan unmarshal body) as [[buildOut outErr] body'] eqn:HD.
  destruct (is_EOF outErr) eqn:Heof; [reflexivity|].
  apply IH.
  - pose proof (Decode_tail body) as Ht. rewrite HD in Ht. simpl in Ht. congruence.
  - destruct (chunks body) as [|c rest] eqn:Hc.
    + rewrite (Decode_exhausted body Hc) in HD. inversion HD; subst.
      rewrite Htl in Heof. discriminate.
    + pose proof (Decode_progress body) as Hp. rewrite HD, Hc in Hp.
      simpl in Hp. simpl in Hlen. assert (c :: rest <> []) by discriminate.
      specialize (Hp H). lia.
Qed.

(** On a stream that ends in any other error the loop never ends: no round
    sees [io.EOF], whatever the fuel. *)
Lemma drainBuildLog_diverges (fuel : nat) :
  forall body (w : World E),
    tail body <> io_EOF ->
    drainBuildLog scan unmarshal fuel body w = None.
Proof.
  induction fuel as [|fuel IH]; intros body w Htl; [reflexivity|].
  simpl.
  destruct (Decode scan unmarshal body) as [[buildOut outErr] body'] eqn:HD.
  destruct (is_EOF outErr) eqn:Heof.
  - exfalso. apply Htl. apply Decode_EOF. rewrite HD. exact Heof.
  - apply IH. pose proof (Decode_tail body) as Ht. rewrite HD in Ht. simpl in Ht. congruence.
Qed.

End BuildLog.

(* ------------------------------------------------------------------ *)
(** ** Traces and texts *)

Section Traces.

Local Open Scope list_scope.

Lemma occurrences_snoc (p : call -> bool) (t : list call) (c : call) :
  occurrences p (t ++ [c]) = occurrences p t + (if p c then 1 else 0).
Proof.
  unfold occurrences. rewrite filter_app, length_app. simpl.
  destruct (p c); reflexivity.
Qed.

End Traces.

Section Texts.

Lemma prefix_append (a b : string) : prefix a (a ++ b) = true.
Proof.
  induction a as [|c a IH]; simpl.
  - destruct b; reflexivity.
  - destruct (ascii_dec c c) as [_|ne]; [exact IH | congruence].
Qed.

Lemma Contains_here (needle rest : string) : Contains (needle ++ rest) needle = true.
Proof.
  assert (Hstep : forall hay, prefix needle hay = true -> Contains hay needle = true).
  { intros hay Hp. destruct hay; cbn [Contains]; rewrite Hp; reflexivity. }
  apply Hstep, prefix_append.
Qed.

Lemma Contains_later (a hay needle : string) :
  Contains hay needle = true -> Contains (a ++ hay) needle = true.
Proof.
  induction a as [|c a IH]; simpl; intros H; [exact H|].
  rewrite (IH H). apply orb_true_r.
Qed.

(** A text names whatever was spliced into it. *)
Lemma Contains_middle (a needle b : string) : Contains (a ++ needle ++ b) needle = true.
Proof. apply Contains_later, Contains_here. Qed.

End Texts.

(* ------------------------------------------------------------------ *)
(** ** BuildImage *)

Section BuildImage_facts.

Local Open Scope list_scope.

Context {E : Type} {DockerClient : Engine E}.
Variable scan : list byte -> scan_result.
Variable unmarshal : list byte -> ImageBuildOut * option string.

(** Once the archive is made and the build accepted, [BuildImage] is the
    loop over the response body. *)
Lemma BuildImage_submitted fuel path imageName (w : World E) ctx e1 body e2 :
  archive_Tar path (engine w) = ((ctx, None), e1) ->
  ImageBuild ctx (buildOptions imageName) e1 = ((body, None), e2) ->
  BuildImage scan unmarshal fuel path imageName w
  = option_map (fun w3 => (None, w3))
      (drainBuildLog scan unmarshal fuel body
         (mkWorld e2 ((trace w ++ [Call_Tar path])
                      ++ [Call_ImageBuild (buildOptions imageName)]))).
Proof.
  intros HTar HBuild. unfold BuildImage, invoke. rewrite HTar. simpl.
  fold (buildOptions imageName). rewrite HBuild. simpl.
  destruct (drainBuildLog _ _ _ _ _); reflexivity.
Qed.

End BuildImage_facts.

(** C1 (as the code has it): a build that was submitted and whose log ends
    in end-of-stream makes [BuildImage] return nil, whatever the records of
    the log were, error records included; and whenever [BuildImage] returns
    after the submission, it returns nil and the log has reached
    end-of-stream. *)
Theorem BuildImage_succeeds_at_end_of_stream
  {E : Type} {DockerClient : Engine E}
  (scan : list byte -> scan_result) (unmarshal : list byte -> ImageBuildOut * option string)
  (path imageName : string) (w : World E) ctx e1 body e2 :
  archive_Tar path (engine w) = ((ctx, None), e1) ->
  ImageBuild ctx (buildOptions imageName) e1 = ((body, None), e2) ->
  (tail body = io_EOF ->
   exists w', BuildImage scan unmarshal (S (List.length (chunks body))) path imageName w
              = Some (None, w'))
  /\ (forall fuel r w', BuildImage scan unmarshal fuel path imageName w = Some (r, w') ->
                        r = None /\ tail body = io_EOF).
Proof.
  intros HTar HBuild. split.
  - intros Htl. rewrite (BuildImage_submitted _ _ _ _ _ _ _ _ _ _ HTar HBuild).
    rewrite drainBuildLog_terminates by (auto; lia). simpl. eauto.
  - intros fuel r w'. rewrite (BuildImage_submitted _ _ _ _ _ _ _ _ _ _ HTar HBuild).
    destruct (drainBuildLog _ _ _ _ _) eqn:Hd; simpl; [|discriminate].
    intros H; inversion H; subst. split; [reflexivity|].
    destruct (tail body) eqn:Htl; try reflexivity;
      rewrite drainBuildLog_diverges in Hd by (rewrite Htl; discriminate);
      discriminate.
Qed.

(** The build of [failed_build] was submitted, its log carries an error
    record and ends, and [BuildImage] returns nil. *)
Lemma BuildImage_succeeds_at_end_of_stream_witness :
  carries_error_record failed_build_log = true /\
  exists w', BuildImage Sim.scan Sim.unmarshal 3 "ctx" "app:latest" failed_build
             = Some (None, w').
Proof.
  split; [reflexivity|].
  edestruct (BuildImage_succeeds_at_end_of_stream Sim.scan Sim.unmarshal
               "ctx" "app:latest" failed_build) as [Hreturns _].
  - simpl. reflexivity.
  - simpl. reflexivity.
  - exact (Hreturns eq_refl).
Defined.

(** C1 (as stated) fails: the log of [failed_build] carries an error record
    before its end, and [BuildImage] reports success. *)
Lemma BuildImage_misses_error_record :
  carries_error_record failed_build_log = true /\
  option_map fst (BuildImage Sim.scan Sim.unmarshal 3 "ctx" "app:latest" failed_build)
  = Some None.
Proof. split; reflexivity. Qed.

(** C2: after the build request has been submitted, every return of
    [BuildImage] finds the response body closed exactly once more than before
    the call; and on a log that ends in end-of-stream, with or without records
    that fail to decode, [BuildImage] does return. *)
Theorem BuildImage_closes_body_once
  {E : Type} {DockerClient : Engine E}
  (scan : list byte -> scan_result) (unmarshal : list byte -> ImageBuildOut * option string)
  (path imageName : string) (w : World E) ctx e1 body e2 :
  archive_Tar path (engine w) = ((ctx, None), e1) ->
  ImageBuild ctx (buildOptions imageName) e1 = ((body, None), e2) ->
  (forall fuel r w', BuildImage scan unmarshal fuel path imageName w = Some (r, w') ->
                     occurrences is_BodyClose (trace w')
                     = S (occurrences is_BodyClose (trace w)))
  /\ (tail body = io_EOF ->
      exists r w', BuildImage scan unmarshal (S (List.length (chunks body))) path imageName w
                   = Some (r, w')).
Proof.
  intros HTar HBuild. split.
  - intros fuel r w'. rewrite (BuildImage_submitted _ _ _ _ _ _ _ _ _ _ HTar HBuild).
    destruct (drainBuildLog _ _ _ _ _) as [w3|] eqn:Hd; simpl; [|discriminate].
    intros H; inversion H; subst. apply drainBuildLog_result in Hd. subst w'. simpl.
    rewrite !occurrences_snoc. simpl. lia.
  - intros Htl. rewrite (BuildImage_submitted _ _ _ _ _ _ _ _ _ _ HTar HBuild).
    rewrite drainBuildLog_terminates by (auto; lia). simpl. eauto.
Qed.

Lemma BuildImage_closes_body_once_witness :
  exists r w', BuildImage Sim.scan Sim.unmarshal 4 "ctx" "app:latest" garbled_build
               = Some (r, w')
               /\ occurrences is_BodyClose (trace w') = 1.
Proof.
  edestruct (BuildImage_closes_body_once Sim.scan Sim.unmarshal
               "ctx" "app:latest" garbled_build) as [Honce Hreturns].
  - simpl. reflexivity.
  - simpl. reflexivity.
  - destruct (Hreturns eq_refl) as [r [w' Hrun]].
    exists r, w'. split; [exact Hrun | exact (Honce _ _ _ Hrun)].
Defined.

(** C9 fails on [broken_build]: the response body delivers one record and
    then fails every [Read] with [io.ErrUnexpectedEOF]; no round of the loop
    sees [io.EOF], and [BuildImage] does not return, whatever the number of
    rounds allowed. *)
Theorem BuildImage_spins_on_read_failure :
  forall fuel,
    BuildImage Sim.scan Sim.unmarshal fuel "ctx" "app:latest" broken_build = None.
Proof.
  intros fuel.
  erewrite (BuildImage_submitted Sim.scan Sim.unmarshal fuel "ctx" "app:latest" broken_build)
    by (simpl; reflexivity).
  rewrite drainBuildLog_diverges; [reflexivity | discriminate].
Qed.

(* ------------------------------------------------------------------ *)
(** ** DeleteImage *)

(** C3: [DeleteImage] inspects the image first.  When the inspection
    fails it returns [(false, nil)] and has issued no other call; when the
    image is there it asks for a forced, child-pruning removal of its ID and
    returns [(true, nil)] if that succeeds and [(true, err)] if it fails. *)
Theorem DeleteImage_contract
  {E : Type} {DockerClient : Engine E} (imageName : string) (w : World E) :
  (forall img err e1,
      ImageInspectWithRaw imageName (engine w) = ((img, Some err), e1) ->
      DeleteImage imageName w
      = ((false, None),
         mkWorld e1 (trace w ++ [Call_ImageInspectWithRaw imageName])))
  /\ (forall img e1 e2,
      ImageInspectWithRaw imageName (engine w) = ((img, None), e1) ->
      ImageRemove (types.ID img) (image.mkRemoveOptions true true) e1 = (None, e2) ->
      DeleteImage imageName w
      = ((true, None),
         mkWorld e2 ((trace w ++ [Call_ImageInspectWithRaw imageName])
                     ++ [Call_ImageRemove (types.ID img)
                           {| image.Force := true; image.PruneChildren := true |}])))
  /\ (forall img e1 err e2,
      ImageInspectWithRaw imageName (engine w) = ((img, None), e1) ->
      ImageRemove (types.ID img) (image.mkRemoveOptions true true) e1 = (Some err, e2) ->
      fst (DeleteImage imageName w)
      = (true,
         Some (errors_New ("[ERR:] [DOCKER] => FAILED TO DELETE IMAGE: "
                           ++ imageName ++ " | => " ++ Error err)))).
Proof.
  unfold DeleteImage, bind, invoke, ret. split; [|split].
  - intros img err e1 Hi. rewrite Hi. reflexivity.
  - intros img e1 e2 Hi Hr. rewrite Hi. simpl. rewrite Hr. reflexivity.
  - intros img e1 err e2 Hi Hr. rewrite Hi. simpl. rewrite Hr. reflexivity.
Qed.

(** On [store]: [ghost] is absent, [app] can be removed, [db] cannot. *)
Lemma DeleteImage_contract_witness :
  fst (DeleteImage "ghost" store) = (false, None)
  /\ occurrences is_removal (trace (snd (DeleteImage "ghost" store))) = 0
  /\ fst (DeleteImage "app" store) = (true, None)
  /\ exists err, fst (DeleteImage "db" store) = (true, Some err).
Proof.
  split; [|split; [|split]].
  - destruct (DeleteImage_contract "ghost" store) as [Habsent _].
    erewrite Habsent by (simpl; reflexivity). reflexivity.
  - destruct (DeleteImage_contract "ghost" store) as [Habsent _].
    erewrite Habsent by (simpl; reflexivity). reflexivity.
  - destruct (DeleteImage_contract "app" store) as [_ [Hremoved _]].
    erewrite Hremoved by (simpl; reflexivity). reflexivity.
  - destruct (DeleteImage_contract "db" store) as [_ [_ Hrefused]].
    eexists. eapply Hrefused; simpl; reflexivity.
Defined.

(* ------------------------------------------------------------------ *)
(** ** GetContainerHealthStatus *)

(** C6: when the inspection fails, [GetContainerHealthStatus] returns the
    status [unhealthy] together with the inspection error, the very value the
    engine gave; an inspection that succeeds and finds a health record returns
    that record's status with a nil error, so the two cannot be confused. *)
Theorem GetContainerHealthStatus_inspect_failure
  {E : Type} {DockerClient : Engine E} (containerID : string) (w : World E) json err e1 :
  ContainerInspect containerID (engine w) = ((json, Some err), e1) ->
  fst (GetContainerHealthStatus containerID w) = Returns ("unhealthy", Some err)
  /\ (forall (w0 : World E) json0 e0 state health,
         ContainerInspect containerID (engine w0) = ((json0, None), e0) ->
         types.State json0 = Some state ->
         types.Health_ state = Some health ->
         fst (GetContainerHealthStatus containerID w0)
         = Returns (types.Status health, None)
         /\ fst (GetContainerHealthStatus containerID w0)
            <> fst (GetContainerHealthStatus containerID w)).
Proof.
  intros Hi.
  assert (Hfail : fst (GetContainerHealthStatus containerID w)
                  = Returns ("unhealthy", Some err)).
  { unfold GetContainerHealthStatus, bind, invoke, ret. rewrite Hi. reflexivity. }
  split; [exact Hfail|].
  intros w0 json0 e0 state health Hi0 Hs Hh.
  assert (Hok : fst (GetContainerHealthStatus containerID w0)
                = Returns (types.Status health, None)).
  { unfold GetContainerHealthStatus, bind, invoke, ret. rewrite Hi0. simpl.
    rewrite Hs, Hh. reflexivity. }
  split; [exact Hok|]. rewrite Hok, Hfail. intros Heq. inversion Heq.
Qed.

Lemma GetContainerHealthStatus_inspect_failure_witness :
  fst (GetContainerHealthStatus "ghost" store)
  = Returns ("unhealthy", Some (foreign "No such container: ghost")).
Proof.
  eapply (GetContainerHealthStatus_inspect_failure "ghost" store).
  simpl. reflexivity.
Defined.

(** Following [State.Health] of a container without a healthcheck panics. *)
Lemma GetContainerHealthStatus_nil_Health
  {E : Type} {DockerClient : Engine E} (containerID : string) (w : World E) json e1 state :
  ContainerInspect containerID (engine w) = ((json, None), e1) ->
  types.State json = Some state ->
  types.Health_ state = None ->
  fst (GetContainerHealthStatus containerID w) = Panics nil_dereference.
Proof.
  intros Hi Hs Hh. unfold GetContainerHealthStatus, bind, invoke, ret.
  rewrite Hi. simpl. rewrite Hs, Hh. reflexivity.
Qed.

(** C10 fails on [store]: the container [web] runs and has no healthcheck;
    its inspection succeeds with a nil [Health], and [GetContainerHealthStatus]
    panics instead of returning. *)
Theorem GetContainerHealthStatus_panics_without_healthcheck :
  fst (ContainerInspect "web" (engine store))
  = (types.mkContainerJSON (Some (types.mkContainerState None)), None)
  /\ fst (GetContainerHealthStatus "web" store) = Panics nil_dereference.
Proof. split; reflexivity. Qed.

(* ------------------------------------------------------------------ *)
(** ** PurgeContainer *)

(** C8: [PurgeContainer] issues one call and no other: the removal of the
    container with force and volume removal on and link removal off.  It asks
    nothing about the container's state and does not stop it first; it
    returns nil exactly when the engine carries out that removal. *)
Theorem PurgeContainer_forced_removal
  {E : Type} {DockerClient : Engine E} (containerID : string) (w : World E) :
  trace (snd (PurgeContainer containerID w))
  = (trace w ++ [Call_ContainerRemove containerID
                   {| container.RemoveVolumes := true;
                      container.RemoveLinks := false;
                      container.Force := true |}])%list
  /\ engine (snd (PurgeContainer containerID w))
     = snd (ContainerRemove containerID (container.mkRemoveOptions true false true) (engine w))
  /\ (fst (PurgeContainer containerID w) = None
      <-> fst (ContainerRemove containerID (container.mkRemoveOptions true false true)
                 (engine w)) = None).
Proof.
  unfold PurgeContainer, bind, invoke, ret.
  destruct (ContainerRemove containerID _ (engine w)) as [[e|] e1]; simpl;
    (split; [reflexivity | split; [reflexivity | split; intros H; try discriminate H; reflexivity]]).
Qed.

(** On [store] the container [web] is running and was never stopped: an
    unforced removal is refused, [PurgeContainer] succeeds and the container
    is gone. *)
Example PurgeContainer_running :
  fst (ContainerRemove "web" (container.mkRemoveOptions true false false) (engine store))
  = Some (foreign "cannot remove a running container")
  /\ fst (PurgeContainer "web" store) = None
  /\ Sim.find_cont "web" (engine (snd (PurgeContainer "web" store))) = None.
Proof. split; [|split]; reflexivity. Qed.

(* ------------------------------------------------------------------ *)
(** ** The frame decoder on a well-formed stream *)

Section Demultiplexing.

Import Stdcopy.
Local Open Scope list_scope.

Lemma to_N_byte_of_N n : Byte.to_N (byte_of_N n) = (n mod 256)%N.
Proof.
  unfold byte_of_N.
  destruct (Byte.of_N (n mod 256)) as [b|] eqn:Hb.
  - apply Byte.to_of_N. exact Hb.
  - apply Byte.of_N_None_iff in Hb.
    pose proof (N.mod_upper_bound n 256). lia.
Qed.

Local Ltac Zify.zify_post_hook ::= Z.to_euclidean_division_equations.

Lemma be32_roundtrip n : (n < 4294967296)%N -> be32_decode (be32 n) = n.
Proof.
  intros Hn. unfold be32_decode, be32. simpl fold_left.
  rewrite !to_N_byte_of_N. lia.
Qed.

Lemma feed_reads (reads : list (list byte)) :
  forall d, fold_left feed_chunk reads d = fold_left feed (List.concat reads) d.
Proof.
  induction reads as [|c reads IH]; intros d; simpl; [reflexivity|].
  rewrite fold_left_app. apply IH.
Qed.

Lemma origin_of_tag_byte o : origin_of_byte (tag_byte o) = Some o.
Proof. destruct o; reflexivity. Qed.

Lemma feed_header (o : origin) (n : N) (d : demux) :
  ph d = AwaitHeader [] ->
  (n < 4294967296)%N ->
  fold_left feed (tag_byte o :: be32 n) d
  = goto (match N.to_nat n with
          | O => AwaitHeader []
          | S k => AwaitPayload o (S k)
          end) d.
Proof.
  intros Hph Hn. destruct d as [p out err]. simpl in Hph. subst p.
  pose proof (be32_roundtrip n Hn) as Hrt.
  unfold be32 in *.
  generalize dependent (byte_of_N (n / 16777216)). intros b3.
  generalize dependent (byte_of_N (n / 65536)). intros b2.
  generalize dependent (byte_of_N (n / 256)). intros b1.
  generalize dependent (byte_of_N n). intros b0 Hrt.
  destruct o; cbn -[be32_decode N.to_nat]; rewrite Hrt;
    destruct (N.to_nat n); reflexivity.
Qed.

Lemma feed_payload (o : origin) (p : list byte) :
  forall b out err,
    fold_left feed (b :: p) (mkDemux (AwaitPayload o (S (List.length p))) out err)
    = emit o (b :: p) (mkDemux (AwaitHeader []) out err).
Proof.
  induction p as [|b' p IH]; intros b out err.
  - destruct o; reflexivity.
  - change (fold_left feed (b :: b' :: p)
              (mkDemux (AwaitPayload o (S (List.length (b' :: p)))) out err))
      with (fold_left feed (b' :: p)
              (feed (mkDemux (AwaitPayload o (S (S (List.length p)))) out err) b)).
    destruct o.
    + change (feed (mkDemux (AwaitPayload Stdout (S (S (List.length p)))) out err) b)
        with (mkDemux (AwaitPayload Stdout (S (List.length p))) (out ++ [b]) err).
      rewrite IH. unfold emit. simpl. rewrite <- app_assoc. reflexivity.
    + change (feed (mkDemux (AwaitPayload Stderr (S (S (List.length p)))) out err) b)
        with (mkDemux (AwaitPayload Stderr (S (List.length p))) out (err ++ [b])).
      rewrite IH. unfold emit. simpl. rewrite <- app_assoc. reflexivity.
Qed.

Lemma feed_frame (f : frame) (d : demux) :
  ph d = AwaitHeader [] ->
  fits f ->
  fold_left feed (encode_frame f) d = goto (AwaitHeader []) (emit (tag f) (payload f) d).
Proof.
  intros Hph Hn. unfold encode_frame.
  change (tag_byte (tag f) :: be32 (N.of_nat (List.length (payload f))) ++ payload f)
    with ((tag_byte (tag f) :: be32 (N.of_nat (List.length (payload f)))) ++ payload f).
  rewrite fold_left_app, feed_header by assumption.
  rewrite Nnat.Nat2N.id.
  destruct (payload f) as [|b p] eqn:Hp.
  - destruct d as [ph0 out err]. simpl in Hph. subst ph0.
    destruct (tag f); simpl; rewrite app_nil_r; reflexivity.
  - destruct d as [ph0 out err]. simpl in Hph. subst ph0.
    unfold goto at 1. cbn [outBuf errBuf List.length].
    rewrite feed_payload. destruct (tag f); reflexivity.
Qed.

Lemma feed_frames (fs : list frame) :
  forall out err,
    Forall fits fs ->
    fold_left feed (encode fs) (mkDemux (AwaitHeader []) out err)
    = mkDemux (AwaitHeader []) (out ++ payloads Stdout fs) (err ++ payloads Stderr fs).
Proof.
  induction fs as [|f fs IH]; intros out err Hall.
  - simpl. rewrite !app_nil_r. reflexivity.
  - inversion Hall as [|f' fs' Hf Hfs]; subst.
    change (encode (f :: fs)) with (encode_frame f ++ encode fs).
    rewrite fold_left_app, feed_frame by auto.
    destruct f as [o p]; destruct o; unfold goto, emit;
      cbn [ph outBuf errBuf tag payload];
      rewrite IH by assumption; unfold payloads; simpl;
      rewrite ?app_assoc, ?app_nil_r; reflexivity.
Qed.

(** However the bytes of a sequence of frames are cut into reads, the
    decoder ends with each origin's payloads in its buffer. *)
Lemma StdCopy_frames (fs : list frame) (reads : list (list byte)) :
  Forall fits fs ->
  List.concat reads = encode fs ->
  StdCopy (mkReader reads io_EOF) = ((payloads Stdout fs, payloads Stderr fs), None).
Proof.
  intros Hall Hc. unfold StdCopy. simpl chunks. rewrite feed_reads, Hc.
  unfold start. rewrite feed_frames by assumption. reflexivity.
Qed.

End Demultiplexing.

(* ------------------------------------------------------------------ *)
(** ** Exec *)

Section Exec_facts.

Local Open Scope list_scope.

Context {E : Type} {DockerClient : Engine E}.
Variable StdCopy : Reader -> (list byte * list byte) * option error.

(** When the exec instance is created, attached to, copied from and
    inspected without error, [Exec] has issued these three calls, has closed
    the attach handle once, last, and returns by the exit code. *)
Lemma Exec_inspected containerID cmd (w : World E) execID e1 resp e2 outBuf errBuf insp e3 :
  ContainerExecCreate containerID (container.mkExecOptions cmd true true) (engine w)
  = ((execID, None), e1) ->
  ContainerExecAttach execID e1 = ((resp, None), e2) ->
  StdCopy resp = ((outBuf, errBuf), None) ->
  ContainerExecInspect execID e2 = ((insp, None), e3) ->
  Exec StdCopy containerID cmd w
  = (exec_result (container.ExitCode insp) outBuf errBuf,
     mkWorld e3 ((((trace w
                    ++ [Call_ContainerExecCreate containerID (container.mkExecOptions cmd true true)])
                   ++ [Call_ContainerExecAttach execID])
                  ++ [Call_ContainerExecInspect execID])
                 ++ [Call_AttachClose])).
Proof.
  intros Hc Ha Hs Hi.
  unfold Exec, defer, bind, invoke, note, ret, exec_result.
  rewrite Hc. simpl. rewrite Ha. simpl. rewrite Hs. simpl. rewrite Hi. simpl.
  destruct (container.ExitCode insp =? 0)%Z; reflexivity.
Qed.

End Exec_facts.

(** C4: when [Exec] reaches the final inspection and that succeeds, an
    exit code of 0 makes it return the text of the stdout buffer and a nil
    error; any other exit code makes it return the empty string and an error
    whose text holds that exit code in decimal and the text of the stderr
    buffer, and nothing of the stdout buffer. *)
Theorem Exec_exit_code
  {E : Type} {DockerClient : Engine E}
  (StdCopy : Reader -> (list byte * list byte) * option error)
  containerID cmd (w : World E) execID e1 resp e2 outBuf errBuf insp e3 :
  ContainerExecCreate containerID (container.mkExecOptions cmd true true) (engine w)
  = ((execID, None), e1) ->
  ContainerExecAttach execID e1 = ((resp, None), e2) ->
  StdCopy resp = ((outBuf, errBuf), None) ->
  ContainerExecInspect execID e2 = ((insp, None), e3) ->
  (container.ExitCode insp = 0%Z ->
   fst (Exec StdCopy containerID cmd w) = (Buffer_String outBuf, None))
  /\ (container.ExitCode insp <> 0%Z ->
      fst (Exec StdCopy containerID cmd w)
      = (EmptyString,
         Some (errors_New ("[ERR:] [DOCKER] => COMMAND EXITIED WITH CODE "
                           ++ Sprint (container.ExitCode insp)
                           ++ " => " ++ Buffer_String errBuf)))).
Proof.
  intros Hc Ha Hs Hi.
  rewrite (Exec_inspected StdCopy _ _ _ _ _ _ _ _ _ _ _ Hc Ha Hs Hi).
  unfold exec_result. simpl. split; intros Hcode.
  - rewrite Hcode. reflexivity.
  - apply Z.eqb_neq in Hcode. rewrite Hcode. reflexivity.
Qed.

(** On [exec_world]: with exit code 0 the stdout text comes back; with exit
    code 2 an error that tells the code and the stderr text. *)
Lemma Exec_exit_code_witness :
  fst (Exec Stdcopy.StdCopy "web" ["ls"] (exec_world 0)) = ("hello world", None)
  /\ fst (Exec Stdcopy.StdCopy "web" ["ls"] (exec_world 2))
     = (EmptyString,
        Some (errors_New
                "[ERR:] [DOCKER] => COMMAND EXITIED WITH CODE 2 => warning: slow")).
Proof.
  split.
  - edestruct (Exec_exit_code Stdcopy.StdCopy "web" ["ls"] (exec_world 0)) as [Hzero _].
    + simpl. reflexivity.
    + simpl. reflexivity.
    + vm_compute. reflexivity.
    + simpl. reflexivity.
    + rewrite Hzero by reflexivity. reflexivity.
  - edestruct (Exec_exit_code Stdcopy.StdCopy "web" ["ls"] (exec_world 2)) as [_ Hnonzero].
    + simpl. reflexivity.
    + simpl. reflexivity.
    + vm_compute. reflexivity.
    + simpl. reflexivity.
    + rewrite Hnonzero by discriminate. reflexivity.
Defined.

(** C7: when the stream of an exec is the wire form of a sequence of
    frames, cut into reads in any way, the decoder ends with the stdout buffer
    equal to the payloads of the stdout frames in order and the stderr buffer
    equal to those of the stderr frames, and these buffers are what [Exec]
    returns from. *)
Theorem Exec_demultiplexes
  {E : Type} {DockerClient : Engine E}
  containerID cmd (w : World E) execID e1 reads e2 insp e3 (frames : list Stdcopy.frame) :
  ContainerExecCreate containerID (container.mkExecOptions cmd true true) (engine w)
  = ((execID, None), e1) ->
  ContainerExecAttach execID e1 = ((mkReader reads io_EOF, None), e2) ->
  ContainerExecInspect execID e2 = ((insp, None), e3) ->
  Forall Stdcopy.fits frames ->
  List.concat reads = Stdcopy.encode frames ->
  Stdcopy.StdCopy (mkReader reads io_EOF)
  = ((Stdcopy.payloads Stdcopy.Stdout frames, Stdcopy.payloads Stdcopy.Stderr frames), None)
  /\ fst (Exec Stdcopy.StdCopy containerID cmd w)
     = exec_result (container.ExitCode insp)
         (Stdcopy.payloads Stdcopy.Stdout frames)
         (Stdcopy.payloads Stdcopy.Stderr frames).
Proof.
  intros Hc Ha Hi Hfit Hreads.
  pose proof (StdCopy_frames frames reads Hfit Hreads) as Hs.
  split; [exact Hs|].
  rewrite (Exec_inspected Stdcopy.StdCopy _ _ _ _ _ _ _ _ _ _ _ Hc Ha Hs Hi).
  reflexivity.
Qed.

Lemma Exec_demultiplexes_witness :
  List.concat exec_reads = Stdcopy.encode exec_frames
  /\ Stdcopy.StdCopy (mkReader exec_reads io_EOF)
     = ((Sim.bytes "hello world", Sim.bytes "warning: slow"), None)
  /\ fst (Exec Stdcopy.StdCopy "web" ["ls"] (exec_world 0)) = ("hello world", None).
Proof.
  assert (Hfit : Forall Stdcopy.fits exec_frames).
  { repeat constructor. }
  assert (Hreads : List.concat exec_reads = Stdcopy.encode exec_frames).
  { vm_compute. reflexivity. }
  edestruct (Exec_demultiplexes "web" ["ls"] (exec_world 0)) as [Hbufs Hexec].
  - simpl. reflexivity.
  - simpl. reflexivity.
  - simpl. reflexivity.
  - exact Hfit.
  - exact Hreads.
  - split; [exact Hreads|]. split.
    + rewrite Hbufs. reflexivity.
    + rewrite Hexec. reflexivity.
Defined.

(* ------------------------------------------------------------------ *)
(** ** Error texts *)

Section Error_texts.

Lemma wrapped_intro (category ident rest : string) :
  prefix label category = true ->
  wrapped ident (errors_New (category ++ ident ++ rest)).
Proof.
  intros Hl. split.
  - unfold labelled.
    assert (Hpre : forall a b c, prefix a b = true -> prefix a (b ++ c) = true).
    { induction a as [|x a IH]; intros b c H.
      - destruct (b ++ c); reflexivity.
      - destruct b as [|y b]; simpl in *; [discriminate|].
        destruct (ascii_dec x y); [apply IH; exact H | discriminate]. }
    apply Hpre, Hl.
  - unfold names. simpl. apply Contains_middle.
Qed.

Lemma labelled_intro (category rest : string) :
  prefix label category = true ->
  labelled (errors_New (category ++ rest)) = true.
Proof.
  intros Hl.
  destruct (wrapped_intro category EmptyString rest Hl) as [H _]. exact H.
Qed.

End Error_texts.

(** C5 (as the code has it): every error that [BuildImage],
    [CreateContainer], [StartContainer], [StopContainer], [PurgeContainer]
    and [DeleteImage] return is made by the package, starts with the label
    and names the image or the container it is about; every error that
    [PruneDanglingImages] and [Exec] return is made by the package, starts
    with the label, and is a fixed text of the failing step followed by the
    text of its cause and by nothing else: the text of the error of the
    prune, of the exec create, of the attach, of the copy or of the exec
    inspect, or, for a nonzero exit code, the code in decimal, an arrow and
    the text of the stderr buffer.  Neither the container nor the command is
    put into these texts. *)
Theorem errors_are_labelled
  {E : Type} {DockerClient : Engine E}
  (scan : list byte -> scan_result) (unmarshal : list byte -> ImageBuildOut * option string)
  (StdCopy : Reader -> (list byte * list byte) * option error)
  (w : World E) :
  (forall fuel path imageName,
      match BuildImage scan unmarshal fuel path imageName w with
      | Some (r, _) => every_error (wrapped imageName) r
      | None => True
      end)
  /\ (forall config,
         every_error (wrapped (Name config)) (snd (fst (CreateContainer config w))))
  /\ (forall cont,
         every_error (wrapped (container.ID cont)) (fst (StartContainer cont w)))
  /\ (forall containerID,
         every_error (wrapped containerID) (fst (StopContainer containerID w)))
  /\ (forall containerID,
         every_error (wrapped containerID) (fst (PurgeContainer containerID w)))
  /\ (forall imageName,
         every_error (wrapped imageName) (snd (fst (DeleteImage imageName w))))
  /\ every_error (fun e => labelled e = true) (snd (fst (PruneDanglingImages w)))
  /\ (forall containerID cmd,
         every_error (fun e => labelled e = true)
           (snd (fst (Exec StdCopy containerID cmd w))))
  /\ snd (fst (PruneDanglingImages w))
     = match ImagesPrune [("dangling", "true")] (engine w) with
       | ((_, Some e), _) =>
           Some (errors_New ("[ERR:] [DOCKER] => FAILED TO PRUNE DANGLING IMAGES  | => "
                             ++ Error e))
       | ((_, None), _) => None
       end
  /\ (forall containerID cmd,
         snd (fst (Exec StdCopy containerID cmd w))
         = match ContainerExecCreate containerID (container.mkExecOptions cmd true true)
                   (engine w) with
           | ((_, Some e), _) =>
               Some (errors_New ("[ERR:] [DOCKER] => FAILED TO CREATE EXEC ISNTANCE => "
                                 ++ Error e))
           | ((execID, None), e1) =>
               match ContainerExecAttach execID e1 with
               | ((_, Some e), _) =>
                   Some (errors_New ("[ERR:] [DOCKER] => FAILED TO ATTACH TO EXEC INSTANCE => "
                                     ++ Error e))
               | ((resp, None), e2) =>
                   match StdCopy resp with
                   | (_, Some e) =>
                       Some (errors_New ("[ERR:] [DOCKER] => FAILED TO COPY EXEC OUTPUT => "
                                         ++ Error e))
                   | ((_, errBuf), None) =>
                       match ContainerExecInspect execID e2 with
                       | ((_, Some e), _) =>
                           Some (errors_New
                                   ("[ERR:] [DOCKER] => FAILED TO INSPECT EXEC INSTANCE => "
                                    ++ Error e))
                       | ((insp, None), _) =>
                           if (container.ExitCode insp =? 0)%Z then None
                           else Some (errors_New
                                        ("[ERR:] [DOCKER] => COMMAND EXITIED WITH CODE "
                                         ++ Sprint (container.ExitCode insp)
                                         ++ " => " ++ Buffer_String errBuf))
                       end
                   end
               end
           end).
Proof.
  repeat match goal with |- _ /\ _ => split end.
  - intros fuel path imageName. unfold BuildImage, invoke.
    destruct (archive_Tar path (engine w)) as [[ctx [e|]] e1]; cbn [fst snd every_error engine trace].
    + apply wrapped_intro. reflexivity.
    + destruct (ImageBuild ctx _ e1) as [[body [e|]] e2]; cbn [fst snd every_error engine trace].
      * apply wrapped_intro. reflexivity.
      * destruct (drainBuildLog _ _ _ _ _); cbn [fst snd every_error engine trace]; exact I.
  - intros config. unfold CreateContainer, bind, invoke, ret.
    destruct (ContainerCreate config (engine w)) as [[res [e|]] e1]; cbn [fst snd every_error engine trace]; [|exact I].
    apply wrapped_intro. reflexivity.
  - intros cont. unfold StartContainer, bind, invoke, ret.
    destruct (ContainerStart _ (engine w)) as [[e|] e1]; cbn [fst snd every_error engine trace]; [|exact I].
    apply wrapped_intro. reflexivity.
  - intros containerID. unfold StopContainer, bind, invoke, ret.
    destruct (ContainerStop _ _ (engine w)) as [[e|] e1]; cbn [fst snd every_error engine trace]; [|exact I].
    apply wrapped_intro. reflexivity.
  - intros containerID. unfold PurgeContainer, bind, invoke, ret.
    destruct (ContainerRemove _ _ (engine w)) as [[e|] e1]; cbn [fst snd every_error engine trace]; [|exact I].
    apply wrapped_intro. reflexivity.
  - intros imageName. unfold DeleteImage, bind, invoke, ret.
    destruct (ImageInspectWithRaw imageName (engine w)) as [[img [e|]] e1]; cbn [fst snd every_error engine trace]; [exact I|].
    destruct (ImageRemove _ _ e1) as [[e|] e2]; cbn [fst snd every_error engine trace]; [|exact I].
    apply wrapped_intro. reflexivity.
  - unfold PruneDanglingImages, bind, invoke, ret.
    destruct (ImagesPrune _ (engine w)) as [[rep [e|]] e1]; cbn [fst snd every_error engine trace]; [|exact I].
    apply labelled_intro. reflexivity.
  - intros containerID cmd. unfold Exec, defer, bind, invoke, note, ret.
    destruct (ContainerExecCreate _ _ (engine w)) as [[execID [e|]] e1]; cbn [fst snd every_error engine trace].
    { apply labelled_intro. reflexivity. }
    destruct (ContainerExecAttach execID e1) as [[resp [e|]] e2]; cbn [fst snd every_error engine trace].
    { apply labelled_intro. reflexivity. }
    destruct (StdCopy resp) as [[outBuf errBuf] [e|]]; cbn [fst snd every_error engine trace].
    { apply labelled_intro. reflexivity. }
    destruct (ContainerExecInspect execID e2) as [[insp [e|]] e3]; cbn [fst snd every_error engine trace].
    { apply labelled_intro. reflexivity. }
    destruct (container.ExitCode insp =? 0)%Z; cbn [fst snd every_error engine trace]; [exact I|].
    apply (labelled_intro "[ERR:] [DOCKER] => COMMAND EXITIED WITH CODE "). reflexivity.
  - unfold PruneDanglingImages, bind, invoke, ret.
    destruct (ImagesPrune _ (engine w)) as [[rep [e|]] e1]; reflexivity.
  - intros containerID cmd. unfold Exec, defer, bind, invoke, note, ret.
    destruct (ContainerExecCreate _ _ (engine w)) as [[execID [e|]] e1];
      cbn [fst snd engine trace]; [reflexivity|].
    destruct (ContainerExecAttach execID e1) as [[resp [e|]] e2];
      cbn [fst snd engine trace]; [reflexivity|].
    destruct (StdCopy resp) as [[outBuf errBuf] [e|]];
      cbn [fst snd engine trace]; [reflexivity|].
    destruct (ContainerExecInspect execID e2) as [[insp [e|]] e3];
      cbn [fst snd engine trace]; [reflexivity|].
    destruct (container.ExitCode insp =? 0)%Z; reflexivity.
Qed.

(** C5 (as stated) fails: on [store] the container [job] is not running,
    the engine refuses the exec, and the error [Exec] returns holds neither
    the container's identity nor the command. *)
Lemma Exec_error_names_no_identifier :
  exists e,
    snd (fst (Exec Stdcopy.StdCopy "job" ["ls"] store)) = Some e
    /\ Error e = "[ERR:] [DOCKER] => FAILED TO CREATE EXEC ISNTANCE => container is not running"
    /\ names "job" e = false
    /\ names "ls" e = false.
Proof.
  eexists. split; [reflexivity|]. split; [reflexivity|]. split; reflexivity.
Qed.

(* ------------------------------------------------------------------ *)
(** ** Further properties of the operations *)

(** X1: a build that was submitted and whose response body ends in any
    error other than [io.EOF] keeps [BuildImage] in its loop for ever: no
    number of rounds yields a result, whatever the JSON library does. *)
Theorem BuildImage_never_returns_after_read_failure
  {E : Type} {DockerClient : Engine E}
  (scan : list byte -> scan_result) (unmarshal : list byte -> ImageBuildOut * option string)
  (path imageName : string) (w : World E) ctx e1 body e2 :
  archive_Tar path (engine w) = ((ctx, None), e1) ->
  ImageBuild ctx (buildOptions imageName) e1 = ((body, None), e2) ->
  tail body <> io_EOF ->
  forall fuel, BuildImage scan unmarshal fuel path imageName w = None.
Proof.
  intros HTar HBuild Htl fuel.
  rewrite (BuildImage_submitted _ _ _ _ _ _ _ _ _ _ HTar HBuild).
  rewrite drainBuildLog_diverges by assumption. reflexivity.
Qed.

Lemma BuildImage_never_returns_after_read_failure_witness :
  BuildImage Sim.scan Sim.unmarshal 1000 "ctx" "app:latest" broken_build = None.
Proof.
  eapply (BuildImage_never_returns_after_read_failure Sim.scan Sim.unmarshal
            "ctx" "app:latest" broken_build).
  - simpl. reflexivity.
  - simpl. reflexivity.
  - discriminate.
Defined.

(** X2: [Exec] closes the attach handle exactly once on every return that
    follows a successful attach, whether the copy, the inspection or the
    command itself failed or not, and not at all when the exec instance could
    not be created or attached to. *)
Theorem Exec_closes_attach_once
  {E : Type} {DockerClient : Engine E}
  (StdCopy : Reader -> (list byte * list byte) * option error)
  (containerID : string) (cmd : list string) (w : World E) :
  occurrences is_AttachClose (trace (snd (Exec StdCopy containerID cmd w)))
  = occurrences is_AttachClose (trace w)
    + match ContainerExecCreate containerID (container.mkExecOptions cmd true true) (engine w) with
      | ((execID, None), e1) =>
          match ContainerExecAttach execID e1 with
          | ((_, None), _) => 1
          | _ => 0
          end
      | _ => 0
      end.
Proof.
  unfold Exec, defer, bind, invoke, note, ret.
  destruct (ContainerExecCreate _ _ (engine w)) as [[execID [e|]] e1];
    cbn [fst snd engine trace].
  { rewrite occurrences_snoc. simpl. lia. }
  destruct (ContainerExecAttach execID e1) as [[resp [e|]] e2];
    cbn [fst snd engine trace].
  { rewrite !occurrences_snoc. simpl. lia. }
  destruct (StdCopy resp) as [[outBuf errBuf] [e|]]; cbn [fst snd engine trace].
  { rewrite !occurrences_snoc. simpl. lia. }
  destruct (ContainerExecInspect execID e2) as [[insp [e|]] e3];
    cbn [fst snd engine trace].
  { rewrite !occurrences_snoc. simpl. lia. }
  destruct (container.ExitCode insp =? 0)%Z; cbn [fst snd engine trace negb];
    rewrite !occurrences_snoc; simpl; lia.
Qed.

(** X3: [StopContainer] issues one call, the stop of the container with
    the signal SIGTERM, and [StartContainer] one call, the start of the
    container of the response it is given; neither swallows the engine's
    refusal: each returns nil exactly when the engine does. *)
Theorem Start_and_Stop_pass_through
  {E : Type} {DockerClient : Engine E} (w : World E) :
  (forall containerID,
      trace (snd (StopContainer containerID w))
      = (trace w ++ [Call_ContainerStop containerID {| container.Signal := "SIGTERM" |}])%list
      /\ (fst (StopContainer containerID w) = None
          <-> fst (ContainerStop containerID (container.mkStopOptions "SIGTERM") (engine w))
              = None))
  /\ (forall cont,
         trace (snd (StartContainer cont w))
         = (trace w ++ [Call_ContainerStart (container.ID cont)])%list
         /\ (fst (StartContainer cont w) = None
             <-> fst (ContainerStart (container.ID cont) (engine w)) = None)).
Proof.
  split.
  - intros containerID. unfold StopContainer, bind, invoke, ret.
    destruct (ContainerStop containerID _ (engine w)) as [[e|] e1]; simpl;
      (split; [reflexivity | split; intros H; try discriminate H; reflexivity]).
  - intros cont. unfold StartContainer, bind, invoke, ret.
    destruct (ContainerStart _ (engine w)) as [[e|] e1]; simpl;
      (split; [reflexivity | split; intros H; try discriminate H; reflexivity]).
Qed.


(** X5: [PruneDanglingImages] issues one call, a prune filtered on
    [dangling=true], and returns the engine's report as it is, with a nil
    error exactly when the engine gave none. *)
Theorem PruneDanglingImages_filter
  {E : Type} {DockerClient : Engine E} (w : World E) :
  trace (snd (PruneDanglingImages w))
  = (trace w ++ [Call_ImagesPrune [("dangling", "true")]])%list
  /\ fst (fst (PruneDanglingImages w))
     = fst (fst (ImagesPrune [("dangling", "true")] (engine w)))
  /\ (snd (fst (PruneDanglingImages w)) = None
      <-> snd (fst (ImagesPrune [("dangling", "true")] (engine w))) = None).
Proof.
  unfold PruneDanglingImages, bind, invoke, ret.
  destruct (ImagesPrune _ (engine w)) as [[rep [e|]] e1]; simpl;
    (split; [reflexivity | split; [reflexivity | split; intros H; try discriminate H; reflexivity]]).
Qed.

(* ------------------------------------------------------------------ *)
(** ** The connection: InitializeDockerClient and CloseDockerClient *)

Section Connection_facts.

Import Connection.
Local Open Scope list_scope.

Context {H S : Type} {client : Host H S}.

(** X6: when the dial succeeds, [InitializeDockerClient] returns nil and
    puts the new client in [DockerClient]; it closes nothing, so the client
    the variable held before is dropped unclosed, and the
    [CloseDockerClient] that follows closes the new client and no other. *)
Theorem InitializeDockerClient_replaces_client (p : Process H S) new s1 :
  NewClientWithOpts [FromEnv; WithAPIVersionNegotiation] (host p) = ((Some new, None), s1) ->
  fst (InitializeDockerClient p) = None
  /\ DockerClient (snd (InitializeDockerClient p)) = Some new
  /\ dials (snd (InitializeDockerClient p))
     = dials p ++ [Dial_NewClientWithOpts [FromEnv; WithAPIVersionNegotiation]]
  /\ dials (snd (CloseDockerClient (snd (InitializeDockerClient p))))
     = dials p ++ [Dial_NewClientWithOpts [FromEnv; WithAPIVersionNegotiation];
                   Dial_Close new].
Proof.
  intros Hd. unfold InitializeDockerClient. rewrite Hd. cbn [fst snd DockerClient dials].
  repeat (split; [reflexivity|]).
  unfold CloseDockerClient. cbn [DockerClient host dials].
  destruct (Close new s1) as [[e|] s2]; cbn [snd dials]; rewrite <- app_assoc; reflexivity.
Qed.

(** X7: when the dial fails, [InitializeDockerClient] returns an error of
    the package that ends with the dial's text, and leaves [DockerClient] as
    it was; if that was nil, the [CloseDockerClient] that follows reports that
    there is no client and calls nothing. *)
Theorem InitializeDockerClient_failure_keeps_client (p : Process H S) cli e s1 :
  NewClientWithOpts [FromEnv; WithAPIVersionNegotiation] (host p) = ((cli, Some e), s1) ->
  fst (InitializeDockerClient p)
  = Some (errors_New ("[ERR:] [DOCKER] => FAILED TO INITIALIZE DOCKER CLIENT! => "
                      ++ Error e)%string)
  /\ DockerClient (snd (InitializeDockerClient p)) = DockerClient p
  /\ (DockerClient p = None ->
      CloseDockerClient (snd (InitializeDockerClient p))
      = (Some (errors_New "[ERR:] [DOCKER] => DOCKER CLIENT NOT FOUND"),
         snd (InitializeDockerClient p))).
Proof.
  intros Hd. unfold InitializeDockerClient. rewrite Hd. cbn [fst snd DockerClient].
  repeat (split; [reflexivity|]).
  intros Hnil. unfold CloseDockerClient. cbn [DockerClient]. rewrite Hnil. reflexivity.
Qed.

(** X8: [CloseDockerClient] never resets [DockerClient].  While the
    variable holds a client, every call closes that client again: two calls
    in a row issue two closes of it, and the second does not report a missing
    client but whatever the host answers to the second close. *)
Theorem CloseDockerClient_keeps_client (p : Process H S) cli :
  DockerClient p = Some cli ->
  let p1 := snd (CloseDockerClient p) in
  let p2 := snd (CloseDockerClient p1) in
  DockerClient p1 = Some cli
  /\ DockerClient p2 = Some cli
  /\ dials p2 = dials p ++ [Dial_Close cli; Dial_Close cli]
  /\ surfaces (fst (Close cli (host p1))) (fst (CloseDockerClient p1)).
Proof.
  intros Hcli. cbv zeta.
  assert (Hstep : forall q, DockerClient q = Some cli ->
            DockerClient (snd (CloseDockerClient q)) = Some cli
            /\ dials (snd (CloseDockerClient q)) = dials q ++ [Dial_Close cli]
            /\ surfaces (fst (Close cli (host q))) (fst (CloseDockerClient q))).
  { intros q Hq. unfold CloseDockerClient. rewrite Hq.
    destruct (Close cli (host q)) as [[e|] s1]; cbn [fst snd DockerClient dials surfaces];
      repeat (split; auto).
    eexists. split; [reflexivity|]. eexists. reflexivity. }
  destruct (Hstep p Hcli) as [H1 [Hd1 _]].
  destruct (Hstep _ H1) as [H2 [Hd2 Hs2]].
  repeat (split; auto).
  rewrite Hd2, Hd1, <- app_assoc. reflexivity.
Qed.

End Connection_facts.

Lemma InitializeDockerClient_replaces_client_witness :
  Connection.dials (snd (Connection.CloseDockerClient
                (snd (Connection.InitializeDockerClient
                        (Connection.mkProcess (Some 0) (Connection.mkDaemon true 1 [0]) [])))))
  = [Connection.Dial_NewClientWithOpts
       [Connection.FromEnv; Connection.WithAPIVersionNegotiation];
     Connection.Dial_Close 1].
Proof.
  eapply (InitializeDockerClient_replaces_client
            (Connection.mkProcess (Some 0) (Connection.mkDaemon true 1 [0]) []) 1).
  simpl. reflexivity.
Defined.

Lemma InitializeDockerClient_failure_keeps_client_witness :
  fst (Connection.CloseDockerClient
         (snd (Connection.InitializeDockerClient
                 (Connection.mkProcess None (Connection.mkDaemon false 0 []) []))))
  = Some (errors_New "[ERR:] [DOCKER] => DOCKER CLIENT NOT FOUND").
Proof.
  edestruct (InitializeDockerClient_failure_keeps_client
               (Connection.mkProcess None (Connection.mkDaemon false 0 []) []))
    as [_ [_ Hclose]].
  - simpl. reflexivity.
  - rewrite (Hclose eq_refl). reflexivity.
Defined.

Lemma CloseDockerClient_keeps_client_witness :
  fst (Connection.CloseDockerClient
         (snd (Connection.CloseDockerClient
                 (Connection.mkProcess (Some 0) (Connection.mkDaemon true 1 [0]) []))))
  = Some (errors_New "[ERR:] [DOCKER] => FAILED TO CLOSE DOCKER CLIENT => client already closed").
Proof.
  pose proof (CloseDockerClient_keeps_client
                (Connection.mkProcess (Some 0) (Connection.mkDaemon true 1 [0]) []) 0 eq_refl)
    as Hk.
  cbv zeta in Hk. destruct Hk as [_ [_ [_ Hs]]].
  reflexivity.
Defined.

(* ------------------------------------------------------------------ *)
(** ** ListContainers *)

Section Listing_facts.

Import Listing.
Local Open Scope list_scope.

Lemma string_app_assoc (a b c : string) : ((a ++ b) ++ c = a ++ b ++ c)%string.
Proof. induction a as [|x a IH]; simpl; [reflexivity | rewrite IH; reflexivity]. Qed.

Lemma string_app_nil_r (a : string) : (a ++ EmptyString)%string = a.
Proof. induction a as [|x a IH]; simpl; [reflexivity | rewrite IH; reflexivity]. Qed.

Lemma line_printable (c : Summary) : printable c -> line c = Returns (format c).
Proof.
  intros [Hid Hnames]. unfold line, slice_to, index0, format.
  apply Nat.leb_le in Hid. rewrite Hid.
  destruct (Names c) as [|name names]; [congruence | reflexivity].
Qed.

Lemma line_unprintable (c : Summary) :
  String.length (ID c) < 10 \/ Names c = [] -> exists msg, line c = Panics msg.
Proof.
  intros Hbad. unfold line, slice_to, index0.
  destruct (10 <=? String.length (ID c))%nat eqn:Hlen; [|eauto].
  destruct Hbad as [Hshort | Hnone].
  - apply Nat.leb_le in Hlen. lia.
  - rewrite Hnone. eauto.
Qed.

Lemma print_each_printable (cs : list Summary) :
  forall rest out,
    Forall printable cs ->
    print_each (cs ++ rest) out = print_each rest (out ++ printed cs)%string.
Proof.
  induction cs as [|c cs IH]; intros rest out Hall; simpl.
  - rewrite string_app_nil_r. reflexivity.
  - inversion Hall as [|c' cs' Hc Hcs]; subst.
    rewrite (line_printable c Hc), IH by assumption.
    rewrite string_app_assoc. reflexivity.
Qed.

Context {E : Type} {DockerClient : Lister E}.

(** X9: when the listing succeeds and every container in it has an ID of
    at least ten bytes and at least one name, [ListContainers] returns nil
    having printed, for each container in the engine's order, its ID, the
    first ten bytes of its ID, its image and its first name, separated by
    spaces and followed by a space and two line feeds; it asks the engine for
    the default listing only. *)
Theorem ListContainers_prints_each_container (s : E) cs s1 :
  ContainerList zeroListOptions s = ((cs, None), s1) ->
  Forall printable cs ->
  ListContainers s = ((Returns None, printed cs), s1).
Proof.
  intros Hl Hall. unfold ListContainers. rewrite Hl.
  pose proof (print_each_printable cs [] EmptyString Hall) as Hp.
  rewrite app_nil_r in Hp. rewrite Hp. reflexivity.
Qed.

(** X10: when the listing holds a container whose ID is shorter than ten
    bytes or that has no name, [ListContainers] panics at the first such
    container: the lines of the containers before it have been printed, those
    of the containers after it have not, and no error is returned. *)
Theorem ListContainers_panics_at_first_unprintable (s : E) good bad rest s1 :
  ContainerList zeroListOptions s = ((good ++ bad :: rest, None), s1) ->
  Forall printable good ->
  String.length (ID bad) < 10 \/ Names bad = [] ->
  exists msg, ListContainers s = ((Panics msg, printed good), s1).
Proof.
  intros Hl Hall Hbad. unfold ListContainers. rewrite Hl.
  rewrite (print_each_printable good (bad :: rest) EmptyString Hall).
  destruct (line_unprintable bad Hbad) as [msg Hmsg].
  exists msg. simpl. rewrite Hmsg. reflexivity.
Qed.


End Listing_facts.

Lemma ListContainers_prints_each_container_witness :
  Listing.ListContainers Listing.listed
  = ((Returns None,
      ("3f2a9c81d07e55aa 3f2a9c81d0 nginx:1.27 /web " ++ Listing.newline ++ Listing.newline
       ++ "0123456789 0123456789 redis /cache " ++ Listing.newline ++ Listing.newline)%string),
     Listing.listed).
Proof.
  etransitivity.
  - eapply (ListContainers_prints_each_container Listing.listed).
    + simpl. reflexivity.
    + repeat constructor; simpl; try lia; discriminate.
  - reflexivity.
Defined.

Lemma ListContainers_panics_at_first_unprintable_witness :
  Listing.ListContainers Listing.listed_short
  = ((Panics "runtime error: slice bounds out of range [:10] with length 3",
      ("3f2a9c81d07e55aa 3f2a9c81d0 nginx:1.27 /web " ++ Listing.newline ++ Listing.newline)%string),
     Listing.listed_short).
Proof.
  edestruct (ListContainers_panics_at_first_unprintable Listing.listed_short
               [Listing.mkSummary "3f2a9c81d07e55aa" "nginx:1.27" ["/web"]]
               (Listing.mkSummary "abc" "redis" ["/cache"])
               [Listing.mkSummary "77aa77aa77aa77aa" "busybox" ["/job"]])
    as [msg Hmsg].
  - simpl. reflexivity.
  - repeat constructor; simpl; try lia; discriminate.
  - left. simpl. lia.
  - reflexivity.
Defined.


(* ------------------------------------------------------------------ *)
(** ** Operations in sequence, and errors read back *)

(** X12: [DeleteImage] twice in a row.  When the image is there, its
    removal succeeds and the engine no longer finds it afterwards, the first
    call returns [(true, nil)] and the second [(false, nil)]; between them
    they inspect, remove and inspect, and the second call removes nothing. *)
Theorem DeleteImage_twice
  {E : Type} {DockerClient : Engine E} (imageName : string) (w : World E)
  img e1 e2 img' err e3 :
  ImageInspectWithRaw imageName (engine w) = ((img, None), e1) ->
  ImageRemove (types.ID img) (image.mkRemoveOptions true true) e1 = (None, e2) ->
  ImageInspectWithRaw imageName e2 = ((img', Some err), e3) ->
  fst (DeleteImage imageName w) = (true, None)
  /\ fst (DeleteImage imageName (snd (DeleteImage imageName w))) = (false, None)
  /\ trace (snd (DeleteImage imageName (snd (DeleteImage imageName w))))
     = (trace w ++ [Call_ImageInspectWithRaw imageName;
                    Call_ImageRemove (types.ID img) (image.mkRemoveOptions true true);
                    Call_ImageInspectWithRaw imageName])%list.
Proof.
  intros Hi Hr Hi'.
  assert (H1 : DeleteImage imageName w
               = ((true, None),
                  mkWorld e2 ((trace w ++ [Call_ImageInspectWithRaw imageName])
                              ++ [Call_ImageRemove (types.ID img)
                                    (image.mkRemoveOptions true true)])%list)).
  { unfold DeleteImage, bind, invoke, ret. rewrite Hi. simpl. rewrite Hr. reflexivity. }
  rewrite H1. cbn [fst snd].
  unfold DeleteImage, bind, invoke, ret. cbn [engine trace]. rewrite Hi'. cbn [fst snd trace].
  repeat split. rewrite <- !app_assoc. reflexivity.
Qed.

Lemma DeleteImage_twice_witness :
  fst (DeleteImage "app" store) = (true, None)
  /\ fst (DeleteImage "app" (snd (DeleteImage "app" store))) = (false, None).
Proof.
  edestruct (DeleteImage_twice "app" store) as [Hfirst [Hsecond _]].
  - simpl. reflexivity.
  - simpl. reflexivity.
  - simpl. reflexivity.
  - split; [exact Hfirst | exact Hsecond].
Defined.

(** X13: when the copy of the output of an exec fails, [Exec] returns the
    empty string and an error of the package that ends with the text of the
    copy's error, whatever had been copied; it closes the attach handle and
    does not inspect the exec instance, so the exit code is never asked
    for. *)
Theorem Exec_copy_failure
  {E : Type} {DockerClient : Engine E}
  (StdCopy : Reader -> (list byte * list byte) * option error)
  containerID cmd (w : World E) execID e1 resp e2 bufs e :
  ContainerExecCreate containerID (container.mkExecOptions cmd true true) (engine w)
  = ((execID, None), e1) ->
  ContainerExecAttach execID e1 = ((resp, None), e2) ->
  StdCopy resp = (bufs, Some e) ->
  Exec StdCopy containerID cmd w
  = ((EmptyString,
      Some (errors_New ("[ERR:] [DOCKER] => FAILED TO COPY EXEC OUTPUT => " ++ Error e))),
     mkWorld e2 (trace w
                 ++ [Call_ContainerExecCreate containerID (container.mkExecOptions cmd true true);
                     Call_ContainerExecAttach execID;
                     Call_AttachClose])%list).
Proof.
  intros Hc Ha Hs.
  unfold Exec, defer, bind, invoke, note, ret.
  rewrite Hc. simpl. rewrite Ha. simpl. rewrite Hs. destruct bufs as [outBuf errBuf]. simpl.
  rewrite <- !app_assoc. reflexivity.
Qed.

Lemma Exec_copy_failure_witness :
  fst (Exec Stdcopy.StdCopy "web" ["ls"] broken_exec_world)
  = (EmptyString,
     Some (errors_New "[ERR:] [DOCKER] => FAILED TO COPY EXEC OUTPUT => unexpected EOF"))
  /\ occurrences (fun c => match c with Call_ContainerExecInspect _ => true | _ => false end)
       (trace (snd (Exec Stdcopy.StdCopy "web" ["ls"] broken_exec_world))) = 0.
Proof.
  erewrite (Exec_copy_failure Stdcopy.StdCopy "web" ["ls"] broken_exec_world)
    by (vm_compute; reflexivity).
  split; reflexivity.
Defined.

Section Reading_back.

Lemma CutPrefix_append (pre s : string) : CutPrefix (pre ++ s) pre = Some s.
Proof.
  induction pre as [|a pre IH]; simpl; [reflexivity|].
  rewrite Ascii.eqb_refl. exact IH.
Qed.

Lemma spaceless_nil : spaceless EmptyString.
Proof. intros rest. reflexivity. Qed.

Lemma spaceless_cons (a : ascii) (s : string) :
  Ascii.eqb a " " = false -> spaceless s -> spaceless (String a s).
Proof.
  intros Ha Hs rest. simpl. rewrite Ha, (Hs rest). reflexivity.
Qed.

Lemma spaceless_uint (d : Decimal.uint) : spaceless (NilEmpty.string_of_uint d).
Proof.
  induction d; simpl; first [apply spaceless_nil | apply spaceless_cons; [reflexivity | assumption]].
Qed.

Lemma spaceless_Sprint (n : Z) : spaceless (Sprint n).
Proof.
  unfold Sprint, NilZero.string_of_int, NilZero.string_of_uint.
  destruct (Z.to_int n) as [d|d].
  - destruct d; try apply (spaceless_uint (_ _)).
    apply spaceless_cons; [reflexivity | apply spaceless_nil].
  - apply spaceless_cons; [reflexivity|].
    destruct d; try apply (spaceless_uint (_ _)).
    apply spaceless_cons; [reflexivity | apply spaceless_nil].
Qed.

(** [Sprint] can be read back. *)
Lemma int_of_string_Sprint (n : Z) :
  option_map Z.of_int (NilZero.int_of_string (Sprint n)) = Some n.
Proof.
  unfold Sprint.
  assert (Hpos : Z.to_int n <> Decimal.Pos Decimal.Nil).
  { intros Heq. pose proof (DecimalZ.of_to n) as Hn. rewrite Heq in Hn.
    simpl in Hn. subst n. discriminate Heq. }
  assert (Hneg : Z.to_int n <> Decimal.Neg Decimal.Nil).
  { intros Heq. pose proof (DecimalZ.of_to n) as Hn. rewrite Heq in Hn.
    simpl in Hn. subst n. discriminate Heq. }
  rewrite (NilZero.isi _ Hpos Hneg). simpl. rewrite DecimalZ.of_to. reflexivity.
Qed.

Lemma parse_exit_error_text (code : Z) (stderr : string) :
  parse_exit_error
    (errors_New ("[ERR:] [DOCKER] => COMMAND EXITIED WITH CODE "
                 ++ Sprint code ++ " => " ++ stderr))
  = Some (code, stderr).
Proof.
  unfold parse_exit_error. cbn [Error]. rewrite CutPrefix_append.
  change (" => " ++ stderr) with (String " " ("=> " ++ stderr)).
  rewrite (spaceless_Sprint code).
  pose proof (int_of_string_Sprint code) as Hcode.
  destruct (NilZero.int_of_string (Sprint code)) as [d|]; [|discriminate].
  simpl in Hcode. inversion Hcode; subst.
  change (String " " ("=> " ++ stderr)) with (" => " ++ stderr).
  rewrite CutPrefix_append. reflexivity.
Qed.

End Reading_back.

(** X14: the error [Exec] returns for a command that exited with a
    nonzero code can be read back: the text after the fixed prefix and up to
    the next space is the exit code in decimal, and the text after the
    following arrow is the standard error of the command, byte for byte; two
    such errors are equal only for equal exit codes and equal standard
    error. *)
Theorem Exec_exit_error_reads_back
  {E : Type} {DockerClient : Engine E}
  (StdCopy : Reader -> (list byte * list byte) * option error)
  containerID cmd (w : World E) execID e1 resp e2 outBuf errBuf insp e3 :
  ContainerExecCreate containerID (container.mkExecOptions cmd true true) (engine w)
  = ((execID, None), e1) ->
  ContainerExecAttach execID e1 = ((resp, None), e2) ->
  StdCopy resp = ((outBuf, errBuf), None) ->
  ContainerExecInspect execID e2 = ((insp, None), e3) ->
  container.ExitCode insp <> 0%Z ->
  exists err,
    snd (fst (Exec StdCopy containerID cmd w)) = Some err
    /\ parse_exit_error err = Some (container.ExitCode insp, Buffer_String errBuf)
    /\ list_byte_of_string (Buffer_String errBuf) = errBuf.
Proof.
  intros Hc Ha Hs Hi Hcode.
  rewrite (Exec_inspected StdCopy _ _ _ _ _ _ _ _ _ _ _ Hc Ha Hs Hi).
  unfold exec_result. apply Z.eqb_neq in Hcode. rewrite Hcode. cbn [fst snd].
  eexists. split; [reflexivity|]. split.
  - apply parse_exit_error_text.
  - apply list_byte_of_string_of_list_byte.
Qed.

Lemma Exec_exit_error_reads_back_witness :
  exists err,
    snd (fst (Exec Stdcopy.StdCopy "web" ["ls"] (exec_world (-3)))) = Some err
    /\ parse_exit_error err = Some ((-3)%Z, "warning: slow").
Proof.
  edestruct (Exec_exit_error_reads_back Stdcopy.StdCopy "web" ["ls"] (exec_world (-3)))
    as [err [Herr [Hparse _]]].
  - simpl. reflexivity.
  - simpl. reflexivity.
  - vm_compute. reflexivity.
  - simpl. reflexivity.
  - discriminate.
  - exists err. split; [exact Herr | exact Hparse].
Defined.

(** X15: the operations that stand for one engine call surface its
    outcome.  [CreateContainer], [StartContainer], [StopContainer],
    [PurgeContainer] and [PruneDanglingImages] return nil exactly when the
    engine's call does, and otherwise a new error of the package whose text
    ends with the text of the engine's error; so does [DeleteImage] for the
    removal, once the inspection has found the image, while a failed
    inspection is not surfaced at all.  [CreateContainer] hands on the
    engine's response as it is, also beside an error. *)
Theorem operations_surface_engine_errors
  {E : Type} {DockerClient : Engine E} (w : World E) :
  (forall config,
      surfaces (snd (fst (ContainerCreate config (engine w))))
               (snd (fst (CreateContainer config w)))
      /\ fst (fst (CreateContainer config w)) = fst (fst (ContainerCreate config (engine w))))
  /\ (forall cont,
         surfaces (fst (ContainerStart (container.ID cont) (engine w)))
                  (fst (StartContainer cont w)))
  /\ (forall containerID,
         surfaces (fst (ContainerStop containerID (container.mkStopOptions "SIGTERM") (engine w)))
                  (fst (StopContainer containerID w)))
  /\ (forall containerID,
         surfaces (fst (ContainerRemove containerID (container.mkRemoveOptions true false true)
                          (engine w)))
                  (fst (PurgeContainer containerID w)))
  /\ surfaces (snd (fst (ImagesPrune [("dangling", "true")] (engine w))))
              (snd (fst (PruneDanglingImages w)))
  /\ (forall imageName,
         match ImageInspectWithRaw imageName (engine w) with
         | ((img, None), e1) =>
             surfaces (fst (ImageRemove (types.ID img) (image.mkRemoveOptions true true) e1))
                      (snd (fst (DeleteImage imageName w)))
         | ((_, Some _), _) => snd (fst (DeleteImage imageName w)) = None
         end).
Proof.
  assert (Hends : forall a b : string, ends_with (a ++ b) b).
  { intros a b. exists a. reflexivity. }
  assert (Hends3 : forall a b c d : string, ends_with (a ++ b ++ c ++ d) d).
  { intros a b c d. exists (a ++ b ++ c)%string. rewrite !string_app_assoc. reflexivity. }
  repeat match goal with |- _ /\ _ => split end.
  - intros config. unfold CreateContainer, bind, invoke, ret.
    destruct (ContainerCreate config (engine w)) as [[res [e|]] e1];
      cbn [fst snd surfaces]; eauto.
  - intros cont. unfold StartContainer, bind, invoke, ret.
    destruct (ContainerStart _ (engine w)) as [[e|] e1]; cbn [fst snd surfaces]; eauto.
  - intros containerID. unfold StopContainer, bind, invoke, ret.
    destruct (ContainerStop _ _ (engine w)) as [[e|] e1]; cbn [fst snd surfaces]; eauto.
  - intros containerID. unfold PurgeContainer, bind, invoke, ret.
    destruct (ContainerRemove _ _ (engine w)) as [[e|] e1]; cbn [fst snd surfaces]; eauto.
  - unfold PruneDanglingImages, bind, invoke, ret.
    destruct (ImagesPrune _ (engine w)) as [[rep [e|]] e1]; cbn [fst snd surfaces]; eauto.
  - intros imageName. unfold DeleteImage, bind, invoke, ret.
    destruct (ImageInspectWithRaw imageName (engine w)) as [[img [e|]] e1];
      cbn [fst snd engine]; [reflexivity|].
    destruct (ImageRemove _ _ e1) as [[e|] e2]; cbn [fst snd surfaces]; eauto.
Qed.
